(** * Renderer: the render-scheduled client step of [src/render/Renderer.js]

    A shallow embedding of [Renderer.draw] and [Renderer.runClientStep].

    - JavaScript numbers are idealised as exact rationals ([Q]); the
      comparisons [>] and [<] are the strict order of [Q].  Equalities between
      numbers are stated with [==] unless both sides are the very expression
      the source computes.
    - The method mutates three fields ([this.doReset],
      [this.clientEngine.lastStepTime], [this.clientEngine.correction]) and
      calls two collaborators: [this.clientEngine.step] and
      [this.clientEngine.gameEngine.trace.trace].  Both are parameters of the
      development.  Each has a private state of its own and leaves the three
      fields alone; the step function may throw, and the trace object may be
      missing, in which case the member call raises a [TypeError].  The reset
      signal is delivered between calls of [draw].
    - A run returns the calls it made, the final fields and how it ended.
      The [while] loop is unrolled with a fuel argument; a run that exhausts
      it ends as [OutOfFuel], which stands for the loop still running. *)

From Stdlib Require Import ZArith QArith Lqa Lia List String Bool.
Import ListNotations.

Local Open Scope Q_scope.

(** ** Numbers *)

(** [const TIME_RESET_THRESHOLD = 100;] (line 5). *)
Definition TIME_RESET_THRESHOLD : Q := 100.

(** JavaScript [a > b] and [a < b] on numbers. *)
Definition numGt (a b : Q) : bool := if Qlt_le_dec b a then true else false.
Definition numLt (a b : Q) : bool := if Qlt_le_dec a b then true else false.

(** ** Calls and outcomes *)

(** The five template strings handed to [trace.trace], kept as the values
    they interpolate. *)
Inductive traceMsg : Type :=
| RESETTING (lastTime period : Q)                       (* line 75 *)
| DRAWING_EXTRA (t LST correction period : Q)           (* line 81 *)
| DRAWING_NOSTEP (t dt correction period : Q)           (* line 91 *)
| DRAWING (t LST correction period : Q)                 (* line 103 *)
| DONE (t LST correction period : Q).                   (* line 111 *)

(** The three places where [clientEngine.step] is called. *)
Inductive site : Type :=
| CatchUp     (* line 82, inside the while loop *)
| Early       (* line 96, [step(t, dt, true)] *)
| Normal.     (* line 108, [step(t, dt)] *)

(** A collaborator call made by the method.  For a step call: where it was
    made, its arguments (a missing third argument is [false]) and whether
    the collaborator returned ([true]) or threw ([false]). *)
Inductive event : Type :=
| StepCall (s : site) (time dt : Q) (physicsOnly : bool) (returned : bool)
| TraceCall (m : traceMsg).

Inductive exn : Type :=
| TypeError      (* member call on a missing trace object *)
| StepFailure.   (* thrown by [clientEngine.step] *)

Inductive completion : Type :=
| Returned
| Threw (e : exn)
| OutOfFuel.

(** What a call of [clientEngine.step] does to the collaborator's state. *)
Inductive stepResult (W : Type) : Type :=
| Returns (h : W)
| Throws (h : W).
Arguments Returns {W} h.
Arguments Throws {W} h.

(** ** Reading a run *)

Definition isStepCall (e : event) : bool :=
  match e with StepCall _ _ _ _ _ => true | TraceCall _ => false end.

Definition stepCalls (es : list event) : list event := filter isStepCall es.

Definition isResetting (e : event) : bool :=
  match e with TraceCall (RESETTING _ _) => true | _ => false end.

Definition fromSite (s : site) (e : event) : bool :=
  match e, s with
  | StepCall CatchUp _ _ _ _, CatchUp => true
  | StepCall Early _ _ _ _, Early => true
  | StepCall Normal _ _ _ _, Normal => true
  | _, _ => false
  end.

Definition failedCall (e : event) : bool :=
  match e with StepCall _ _ _ _ false => true | _ => false end.

(** Number of step calls made from a given place. *)
Definition calls (s : site) (es : list event) : nat :=
  List.length (filter (fromSite s) es).

(** The elapsed time handed to the step function is not negative. *)
Definition dtNonNegative (e : event) : Prop :=
  match e with StepCall _ _ dt _ _ => 0 <= dt | TraceCall _ => True end.

(** The time handed to the step function is at most, or at least, [b]. *)
Definition timeAtMost (b : Q) (e : event) : Prop :=
  match e with StepCall _ time _ _ _ => time <= b | TraceCall _ => True end.

Definition timeAtLeast (b : Q) (e : event) : Prop :=
  match e with StepCall _ time _ _ _ => b <= time | TraceCall _ => True end.

(** [lastStepTime] after [n] rounds of [lastStepTime += p]. *)
Fixpoint stepsAhead (n : nat) (lst p : Q) : Q :=
  match n with
  | O => lst
  | S n' => stepsAhead n' (lst + p) p
  end.

(** ** Collaborators used in the worked examples *)

(** A step function that returns, one that throws, and a trace object that
    keeps the messages it is given. *)
Definition stepOk : Q -> Q -> bool -> unit -> stepResult unit :=
  fun _ _ _ h => Returns h.
Definition stepBroken : Q -> Q -> bool -> unit -> stepResult unit :=
  fun _ _ _ h => Throws h.
Definition traceLog : traceMsg -> list traceMsg -> list traceMsg :=
  fun m d => d ++ [m].

(** ** The method *)

Section Scheduler.

(** State of the step collaborator and of the trace collaborator. *)
Variables W D : Type.

(** [this.clientEngine.step]. *)
Variable step : Q -> Q -> bool -> W -> stepResult W.

(** [this.clientEngine.gameEngine.trace]; [None] when the object is
    missing. *)
Variable trace : option (traceMsg -> D -> D).

(** [this.clientEngine.options.stepPeriod] and
    [this.clientEngine.options.scheduler]. *)
Variable stepPeriod : Q.
Variable scheduler : string.

(** The fields the method reads and writes, with the collaborators'
    states. *)
Record World : Type := mkWorld {
  doReset : bool;
  lastStepTime : Q;
  correction : Q;
  host : W;
  diag : D
}.

Definition set_doReset (b : bool) (w : World) : World :=
  mkWorld b (lastStepTime w) (correction w) (host w) (diag w).
Definition set_lastStepTime (x : Q) (w : World) : World :=
  mkWorld (doReset w) x (correction w) (host w) (diag w).
Definition set_correction (x : Q) (w : World) : World :=
  mkWorld (doReset w) (lastStepTime w) x (host w) (diag w).
Definition set_host (h : W) (w : World) : World :=
  mkWorld (doReset w) (lastStepTime w) (correction w) h (diag w).
Definition set_diag (d : D) (w : World) : World :=
  mkWorld (doReset w) (lastStepTime w) (correction w) (host w) d.

Record Result : Type := mkResult {
  events : list event;
  world : World;
  outcome : completion
}.

(** A piece of the method body. *)
Definition Cmd : Type := World -> Result.

Definition skip : Cmd := fun w => mkResult [] w Returned.

(** Run [k] after a partial run [r], unless [r] already ended the call. *)
Definition andThen (r : Result) (k : Cmd) : Result :=
  match outcome r with
  | Returned =>
      let r' := k (world r) in
      mkResult (events r ++ events r') (world r') (outcome r')
  | _ => r
  end.

Definition seq (c1 c2 : Cmd) : Cmd := fun w => andThen (c1 w) c2.

Definition assign (f : World -> World) : Cmd :=
  fun w => mkResult [] (f w) Returned.

(** [this.clientEngine.gameEngine.trace.trace(msg)]. *)
Definition callTrace (msg : World -> traceMsg) : Cmd := fun w =>
  match trace with
  | Some f => mkResult [TraceCall (msg w)] (set_diag (f (msg w) (diag w)) w) Returned
  | None => mkResult [] w (Threw TypeError)
  end.

(** [this.clientEngine.step(time, dt, physicsOnly)]. *)
Definition callStep (s : site) (time dt : Q) (physicsOnly : bool) : Cmd := fun w =>
  match step time dt physicsOnly (host w) with
  | Returns h => mkResult [StepCall s time dt physicsOnly true] (set_host h w) Returned
  | Throws h => mkResult [StepCall s time dt physicsOnly false] (set_host h w) (Threw StepFailure)
  end.

Notation "c1 ;; c2" := (seq c1 c2) (at level 61, right associativity).

(** Lines 70-76: the reset test and the re-centering. *)
Definition resetPhase (t p : Q) : Cmd := fun w =>
  if doReset w || numGt t (lastStepTime w + TIME_RESET_THRESHOLD) then
    (assign (set_doReset false) ;;
     assign (set_lastStepTime (t - p / 2)) ;;
     assign (set_correction (p / 2)) ;;
     callTrace (fun w => RESETTING (lastStepTime w) p)) w
  else skip w.

(** Lines 79-85: [while (t > lastStepTime + p) { ... }]. *)
Fixpoint catchUp (fuel : nat) (t p : Q) : Cmd := fun w =>
  if numGt t (lastStepTime w + p) then
    match fuel with
    | O => mkResult [] w OutOfFuel
    | S fuel' =>
        (callTrace (fun w => DRAWING_EXTRA t (lastStepTime w) (correction w) p) ;;
         (fun w => callStep CatchUp (lastStepTime w + p) (p + correction w) false w) ;;
         assign (fun w => set_lastStepTime (lastStepTime w + p) w) ;;
         assign (set_correction 0) ;;
         catchUp fuel' t p) w
    end
  else skip w.

(** Lines 89-98: the early branch, which returns from the method. *)
Definition earlyBranch (t p : Q) : Cmd := fun w =>
  (callTrace (fun w => DRAWING_NOSTEP t (t - lastStepTime w) (correction w) p) ;;
   (fun w =>
      let dt := t - lastStepTime w + correction w in
      let dt := if numLt dt 0 then 0 else dt in
      (assign (fun w => set_correction (lastStepTime w - t) w) ;;
       callStep Early t dt true) w)) w.

(** Lines 100-111: the render-controlled step. *)
Definition normalBranch (t p : Q) : Cmd := fun w =>
  (callTrace (fun w => DRAWING t (lastStepTime w) (correction w) p) ;;
   (fun w =>
      let dt := t - lastStepTime w + correction w in
      (assign (fun w => set_lastStepTime (lastStepTime w + p) w) ;;
       assign (fun w => set_correction (lastStepTime w - t) w) ;;
       callStep Normal t dt false) w) ;;
   callTrace (fun w => DONE t (lastStepTime w) (correction w) p)) w.

(** Lines 89-111. *)
Definition dispatch (t p : Q) : Cmd := fun w =>
  if numLt t (lastStepTime w) then earlyBranch t p w else normalBranch t p w.

(** [runClientStep(t, dt)] (lines 67-112).  The argument [dt] is
    overwritten before it is read. *)
Definition runClientStep (fuel : nat) (t dt : Q) : Cmd :=
  let p := stepPeriod in
  resetPhase t p ;; catchUp fuel t p ;; dispatch t p.

(** [draw(t, dt)] (lines 55-58). *)
Definition draw (fuel : nat) (t dt : Q) : Cmd :=
  if String.eqb scheduler "render-schedule" then runClientStep fuel t dt
  else skip.

(** The handler registered in the constructor (line 23):
    [() => { this.doReset = true; }]. *)
Definition onStepReset (w : World) : World := set_doReset true w.

(** What the host does with a renderer: it raises the reset signal or
    calls [draw]. *)
Inductive input : Type :=
| Signal
| Tick (t dt : Q).

(** A sequence of inputs, one after the other.  A call of [draw] that
    throws leaves the fields as they were at the throw, and the host may
    go on calling. *)
Fixpoint feed (fuel : nat) (ins : list input) : Cmd := fun w =>
  match ins with
  | [] => skip w
  | Signal :: rest => feed fuel rest (onStepReset w)
  | Tick t dt :: rest =>
      let r := draw fuel t dt w in
      match outcome r with
      | OutOfFuel => r
      | _ =>
          let r' := feed fuel rest (world r) in
          mkResult (events r ++ events r') (world r') (outcome r')
      end
  end.


(** How a call may end, against the calls it made.  A step call that threw
    is the last call of the run, which then ends by throwing the same
    failure; a [TypeError] needs the trace object to be missing; a run that
    ends otherwise has no step call that threw. *)
Definition failurePropagates (r : Result) : Prop :=
  match outcome r with
  | Threw StepFailure =>
      exists es s time dt physicsOnly,
        events r = es ++ [StepCall s time dt physicsOnly false] /\
        existsb failedCall es = false
  | Threw TypeError => trace = None /\ existsb failedCall (events r) = false
  | Returned | OutOfFuel => existsb failedCall (events r) = false
  end.

(** ** Comparisons *)

Lemma numGt_true (a b : Q) : numGt a b = true <-> b < a.
Proof.
  unfold numGt. destruct (Qlt_le_dec b a) as [H | H]; split; intro K;
    try reflexivity; try assumption; try discriminate.
  exfalso. apply (Qlt_not_le _ _ K H).
Qed.

Lemma numGt_false (a b : Q) : numGt a b = false <-> a <= b.
Proof.
  unfold numGt. destruct (Qlt_le_dec b a) as [H | H]; split; intro K;
    try reflexivity; try assumption; try discriminate.
  exfalso. apply (Qlt_not_le _ _ H K).
Qed.

Lemma numLt_true (a b : Q) : numLt a b = true <-> a < b.
Proof.
  unfold numLt. destruct (Qlt_le_dec a b) as [H | H]; split; intro K;
    try reflexivity; try assumption; try discriminate.
  exfalso. apply (Qlt_not_le _ _ K H).
Qed.

Lemma numLt_false (a b : Q) : numLt a b = false <-> b <= a.
Proof.
  unfold numLt. destruct (Qlt_le_dec a b) as [H | H]; split; intro K;
    try reflexivity; try assumption; try discriminate.
  exfalso. apply (Qlt_not_le _ _ H K).
Qed.

(** ** One run, any collaborators *)

Local Abbreviation p := stepPeriod.

(** *** The three phases, unfolded *)

Lemma resetPhase_fires (t : Q) (w : World) :
  doReset w || numGt t (lastStepTime w + TIME_RESET_THRESHOLD) = true ->
  resetPhase t p w =
  match trace with
  | Some f =>
      mkResult [TraceCall (RESETTING (t - p / 2) p)]
        (mkWorld false (t - p / 2) (p / 2) (host w)
           (f (RESETTING (t - p / 2) p) (diag w)))
        Returned
  | None =>
      mkResult [] (mkWorld false (t - p / 2) (p / 2) (host w) (diag w))
        (Threw TypeError)
  end.
Proof.
  intro H. unfold resetPhase. rewrite H.
  unfold seq, andThen, assign, callTrace. simpl.
  destruct trace; reflexivity.
Qed.

Lemma resetPhase_idle (t : Q) (w : World) :
  doReset w || numGt t (lastStepTime w + TIME_RESET_THRESHOLD) = false ->
  resetPhase t p w = mkResult [] w Returned.
Proof. intro H. unfold resetPhase. rewrite H. reflexivity. Qed.

Lemma catchUp_exit (fuel : nat) (t : Q) (w : World) :
  numGt t (lastStepTime w + p) = false ->
  catchUp fuel t p w = mkResult [] w Returned.
Proof. intro H. destruct fuel; simpl; rewrite H; reflexivity. Qed.

Lemma catchUp_iterate (fuel : nat) (t : Q) (w : World) :
  numGt t (lastStepTime w + p) = true ->
  catchUp (S fuel) t p w =
  match trace with
  | None => mkResult [] w (Threw TypeError)
  | Some f =>
      let m := DRAWING_EXTRA t (lastStepTime w) (correction w) p in
      let time := lastStepTime w + p in
      let dt := p + correction w in
      match step time dt false (host w) with
      | Throws h =>
          mkResult [TraceCall m; StepCall CatchUp time dt false false]
            (mkWorld (doReset w) (lastStepTime w) (correction w) h
               (f m (diag w)))
            (Threw StepFailure)
      | Returns h =>
          let r :=
            catchUp fuel t p
              (mkWorld (doReset w) (lastStepTime w + p) 0 h (f m (diag w)))
          in
          mkResult
            (TraceCall m :: StepCall CatchUp time dt false true :: events r)
            (world r) (outcome r)
      end
  end.
Proof.
  intro H. simpl. rewrite H.
  unfold seq, andThen, assign, callTrace, callStep. simpl.
  destruct trace as [f | ]; simpl; [ | reflexivity ].
  destruct (step (lastStepTime w + p) (p + correction w) false (host w));
    reflexivity.
Qed.

Lemma earlyBranch_unfold (t : Q) (w : World) :
  earlyBranch t p w =
  match trace with
  | None => mkResult [] w (Threw TypeError)
  | Some f =>
      let m := DRAWING_NOSTEP t (t - lastStepTime w) (correction w) p in
      let dt0 := t - lastStepTime w + correction w in
      let dt := if numLt dt0 0 then 0 else dt0 in
      match step t dt true (host w) with
      | Returns h =>
          mkResult [TraceCall m; StepCall Early t dt true true]
            (mkWorld (doReset w) (lastStepTime w) (lastStepTime w - t) h
               (f m (diag w)))
            Returned
      | Throws h =>
          mkResult [TraceCall m; StepCall Early t dt true false]
            (mkWorld (doReset w) (lastStepTime w) (lastStepTime w - t) h
               (f m (diag w)))
            (Threw StepFailure)
      end
  end.
Proof.
  unfold earlyBranch, seq, andThen, assign, callTrace, callStep. simpl.
  destruct trace as [f | ]; simpl; [ | reflexivity ].
  destruct (step t _ true (host w)); reflexivity.
Qed.

Lemma normalBranch_unfold (t : Q) (w : World) :
  normalBranch t p w =
  match trace with
  | None => mkResult [] w (Threw TypeError)
  | Some f =>
      let m := DRAWING t (lastStepTime w) (correction w) p in
      let dt := t - lastStepTime w + correction w in
      let lst := lastStepTime w + p in
      let m' := DONE t lst (lst - t) p in
      match step t dt false (host w) with
      | Returns h =>
          mkResult [TraceCall m; StepCall Normal t dt false true; TraceCall m']
            (mkWorld (doReset w) lst (lst - t) h (f m' (f m (diag w))))
            Returned
      | Throws h =>
          mkResult [TraceCall m; StepCall Normal t dt false false]
            (mkWorld (doReset w) lst (lst - t) h (f m (diag w)))
            (Threw StepFailure)
      end
  end.
Proof.
  unfold normalBranch, seq, andThen, assign, callTrace, callStep. simpl.
  destruct trace as [f | ]; simpl; [ | reflexivity ].
  destruct (step t _ false (host w)); reflexivity.
Qed.

Lemma runClientStep_unfold (fuel : nat) (t dt : Q) (w : World) :
  runClientStep fuel t dt w =
  andThen (resetPhase t p w)
    (fun w1 => andThen (catchUp fuel t p w1) (dispatch t p)).
Proof. reflexivity. Qed.

(** *** Reading the calls of a run *)

Lemma existsb_false_app {A} (f : A -> bool) (l l' : list A) :
  existsb f l = false -> existsb f l' = false -> existsb f (l ++ l') = false.
Proof. intros H H'. rewrite existsb_app, H, H'. reflexivity. Qed.

Lemma andThen_returned (r : Result) (k : Cmd) :
  outcome r = Returned ->
  andThen r k =
  mkResult (events r ++ events (k (world r))) (world (k (world r)))
    (outcome (k (world r))).
Proof. intro H. unfold andThen. rewrite H. reflexivity. Qed.

Lemma andThen_stopped (r : Result) (k : Cmd) :
  outcome r <> Returned -> andThen r k = r.
Proof. intro H. unfold andThen. destruct (outcome r); congruence. Qed.

Lemma andThen_Forall (P : event -> Prop) (r : Result) (k : Cmd) :
  Forall P (events r) ->
  (outcome r = Returned -> Forall P (events (k (world r)))) ->
  Forall P (events (andThen r k)).
Proof.
  intros Hr Hk. unfold andThen.
  destruct (outcome r) eqn:E; try assumption.
  simpl. apply Forall_app. split; [ assumption | apply Hk; reflexivity ].
Qed.

Lemma catchUp_Forall (P : event -> Prop) (t : Q) :
  (forall a b c d, P (TraceCall (DRAWING_EXTRA a b c d))) ->
  (forall a b ok, P (StepCall CatchUp a b false ok)) ->
  forall fuel w, Forall P (events (catchUp fuel t p w)).
Proof.
  intros HT HS. induction fuel as [ | fuel IH]; intro w;
    destruct (numGt t (lastStepTime w + p)) eqn:G.
  - simpl. rewrite G. constructor.
  - rewrite catchUp_exit by assumption. constructor.
  - rewrite catchUp_iterate by assumption.
    destruct trace as [f | ]; [ | constructor ].
    cbv zeta.
    destruct (step (lastStepTime w + p) (p + correction w) false (host w));
      simpl; repeat constructor; auto.
  - rewrite catchUp_exit by assumption. constructor.
Qed.

Lemma dispatch_Forall (P : event -> Prop) (t : Q) :
  (forall a b c d, P (TraceCall (DRAWING_NOSTEP a b c d))) ->
  (forall a b c d, P (TraceCall (DRAWING a b c d))) ->
  (forall a b c d, P (TraceCall (DONE a b c d))) ->
  (forall a b ok, P (StepCall Early a b true ok)) ->
  (forall a b ok, P (StepCall Normal a b false ok)) ->
  forall w, Forall P (events (dispatch t p w)).
Proof.
  intros H1 H2 H3 H4 H5 w. unfold dispatch.
  destruct (numLt t (lastStepTime w)).
  - rewrite earlyBranch_unfold. destruct trace as [f | ]; [ | constructor ].
    cbv zeta. destruct (step t _ true (host w)); simpl; repeat constructor; auto.
  - rewrite normalBranch_unfold. destruct trace as [f | ]; [ | constructor ].
    cbv zeta. destruct (step t _ false (host w)); simpl; repeat constructor; auto.
Qed.

Lemma Forall_not_existsb (f : event -> bool) (l : list event) :
  Forall (fun e => f e = false) l -> existsb f l = false.
Proof.
  induction 1 as [ | e l He _ IH]; simpl; [ reflexivity | ].
  rewrite He, IH. reflexivity.
Qed.

Lemma mode_on : scheduler = "render-schedule"%string ->
  forall fuel t dt w, draw fuel t dt w = runClientStep fuel t dt w.
Proof.
  intros H fuel t dt w. unfold draw. rewrite H, String.eqb_refl. reflexivity.
Qed.

(** *** The mode gate *)

(** C7.  When [clientEngine.options.scheduler] is anything but
    ["render-schedule"], [draw] does nothing, whatever [t], [dt] and the
    fields are: no collaborator is called, [lastStepTime], [correction] and
    the collaborators' states are unchanged, and a pending [doReset] stays
    pending. *)
Theorem draw_is_noop_in_other_modes (fuel : nat) (t dt : Q) (w : World) :
  scheduler <> "render-schedule"%string ->
  draw fuel t dt w = mkResult [] w Returned.
Proof.
  intro H. unfold draw.
  destruct (String.eqb scheduler "render-schedule") eqn:E.
  - apply String.eqb_eq in E. contradiction.
  - reflexivity.
Qed.

(** *** The reset test *)

(** C1 (as the code has it).  With the trace object present, a call in
    render-schedule mode emits the RESETTING message exactly when [doReset]
    is pending or [t > lastStepTime + TIME_RESET_THRESHOLD]; the period is
    not part of the test. *)
Theorem reset_fires_iff (f : traceMsg -> D -> D) (fuel : nat) (t dt : Q)
    (w : World) :
  scheduler = "render-schedule"%string ->
  trace = Some f ->
  existsb isResetting (events (draw fuel t dt w)) = true <->
  (doReset w = true \/ lastStepTime w + TIME_RESET_THRESHOLD < t).
Proof.
  intros Hm Htr. rewrite (mode_on Hm), runClientStep_unfold.
  destruct (doReset w || numGt t (lastStepTime w + TIME_RESET_THRESHOLD)) eqn:C.
  - rewrite resetPhase_fires by assumption. rewrite Htr.
    split; intros _.
    + apply orb_true_iff in C. destruct C as [C | C]; [ left; exact C | ].
      right. apply numGt_true. exact C.
    + reflexivity.
  - rewrite resetPhase_idle by assumption.
    split; intro H.
    + exfalso. revert H. unfold andThen at 1. simpl.
      rewrite Forall_not_existsb; [ discriminate | ].
      apply andThen_Forall.
      * apply catchUp_Forall; reflexivity.
      * intros _. apply dispatch_Forall; reflexivity.
    + exfalso. apply orb_false_iff in C. destruct C as [C1 C2].
      destruct H as [H | H]; [ congruence | ].
      apply numGt_true in H. congruence.
Qed.

(** C2.  If the reset test succeeds, the call is the re-centering followed
    by the rest of the method: the re-centering calls no step function and
    leaves [doReset = false], [lastStepTime = t - p/2] and
    [correction = p/2], and the loop and the branches (where every step call
    is made) start from these fields. *)
Theorem reset_recenters_before_any_step (fuel : nat) (t dt : Q) (w : World) :
  scheduler = "render-schedule"%string ->
  doReset w = true \/ lastStepTime w + TIME_RESET_THRESHOLD < t ->
  exists r1 : Result,
    draw fuel t dt w = andThen r1 (catchUp fuel t p ;; dispatch t p) /\
    stepCalls (events r1) = [] /\
    doReset (world r1) = false /\
    lastStepTime (world r1) = t - p / 2 /\
    correction (world r1) = p / 2 /\
    host (world r1) = host w.
Proof.
  intros Hm H. exists (resetPhase t p w).
  split; [ rewrite (mode_on Hm); reflexivity | ].
  assert (C : doReset w || numGt t (lastStepTime w + TIME_RESET_THRESHOLD) = true).
  { apply orb_true_iff. destruct H as [H | H]; [ left; exact H | right ].
    apply numGt_true. exact H. }
  rewrite resetPhase_fires by assumption.
  destruct trace; simpl; repeat split; reflexivity.
Qed.

(** *** A tick inside the current period *)

(** C5 (as the code has it).  With no reset pending, the trace object
    present and [lastStepTime <= t < lastStepTime + p], the claim holds when
    moreover [t <= lastStepTime + TIME_RESET_THRESHOLD], which the reset test
    needs: the call makes one step call, from the normal branch, with
    [dt = t - lastStepTime + correction]; it advances [lastStepTime] by [p]
    and leaves [correction] at the new [lastStepTime] minus [t]. *)
Theorem tick_within_period (f : traceMsg -> D -> D) (fuel : nat) (t dt : Q)
    (w : World) :
  scheduler = "render-schedule"%string ->
  trace = Some f ->
  doReset w = false ->
  lastStepTime w <= t ->
  t < lastStepTime w + p ->
  t <= lastStepTime w + TIME_RESET_THRESHOLD ->
  exists ok : bool,
    stepCalls (events (draw fuel t dt w)) =
      [StepCall Normal t (t - lastStepTime w + correction w) false ok] /\
    lastStepTime (world (draw fuel t dt w)) = lastStepTime w + p /\
    correction (world (draw fuel t dt w)) = lastStepTime w + p - t /\
    outcome (draw fuel t dt w) = if ok then Returned else Threw StepFailure.
Proof.
  intros Hm Htr Hr Hlo Hhi Hth.
  rewrite (mode_on Hm), runClientStep_unfold.
  rewrite resetPhase_idle.
  2:{ rewrite Hr. simpl. apply numGt_false. exact Hth. }
  unfold andThen at 1. simpl.
  rewrite catchUp_exit.
  2:{ apply numGt_false. apply Qlt_le_weak. exact Hhi. }
  unfold andThen. simpl. unfold dispatch.
  replace (numLt t (lastStepTime w)) with false.
  2:{ symmetry. apply numLt_false. exact Hlo. }
  rewrite normalBranch_unfold, Htr. cbv zeta.
  destruct (step t (t - lastStepTime w + correction w) false (host w)).
  - exists true. simpl. repeat split; reflexivity.
  - exists false. simpl. repeat split; reflexivity.
Qed.

(** *** Which branches a call takes *)

Lemma calls_app (s : site) (l l' : list event) :
  calls s (l ++ l') = (calls s l + calls s l')%nat.
Proof. unfold calls. rewrite filter_app, length_app. reflexivity. Qed.

Lemma catchUp_stays_behind (t : Q) (fuel : nat) :
  forall w, lastStepTime w < t ->
  outcome (catchUp fuel t p w) = Returned ->
  lastStepTime (world (catchUp fuel t p w)) < t.
Proof.
  induction fuel as [ | fuel IH]; intros w Hw;
    destruct (numGt t (lastStepTime w + p)) eqn:G.
  - simpl. rewrite G. discriminate.
  - rewrite catchUp_exit by assumption. intros _. exact Hw.
  - rewrite catchUp_iterate by assumption.
    destruct trace as [f | ]; [ | discriminate ]. cbv zeta.
    destruct (step (lastStepTime w + p) (p + correction w) false (host w));
      [ | discriminate ].
    simpl. apply IH. simpl. apply numGt_true. exact G.
  - rewrite catchUp_exit by assumption. intros _. exact Hw.
Qed.

Lemma catchUp_calls (t : Q) (fuel : nat) (w : World) :
  calls Early (events (catchUp fuel t p w)) = 0%nat /\
  calls Normal (events (catchUp fuel t p w)) = 0%nat /\
  (calls CatchUp (events (catchUp fuel t p w)) = 0%nat \/
   outcome (catchUp fuel t p w) <> Returned \/
   lastStepTime (world (catchUp fuel t p w)) < t).
Proof.
  assert (F : Forall (fun e => fromSite Early e = false /\ fromSite Normal e = false)
                (events (catchUp fuel t p w))).
  { apply catchUp_Forall; intros; split; reflexivity. }
  split; [ | split ].
  - unfold calls. induction F as [ | e l [He _] _ IH]; simpl;
      [ reflexivity | rewrite He; exact IH ].
  - unfold calls. induction F as [ | e l [_ He] _ IH]; simpl;
      [ reflexivity | rewrite He; exact IH ].
  - clear F. destruct (numGt t (lastStepTime w + p)) eqn:G.
    + destruct fuel as [ | fuel]; [ simpl; rewrite G; left; reflexivity | ].
      destruct (outcome (catchUp (S fuel) t p w)) eqn:O;
        try (right; left; discriminate).
      right. right. revert O. rewrite catchUp_iterate by assumption.
      destruct trace as [f | ]; [ | discriminate ]. cbv zeta.
      destruct (step (lastStepTime w + p) (p + correction w) false (host w));
        [ | discriminate ].
      simpl. apply catchUp_stays_behind. simpl. apply numGt_true. exact G.
    + rewrite catchUp_exit by assumption. left. reflexivity.
Qed.

Lemma dispatch_calls (t : Q) (w : World) :
  calls CatchUp (events (dispatch t p w)) = 0%nat /\
  (calls Early (events (dispatch t p w)) +
   calls Normal (events (dispatch t p w)) <= 1)%nat /\
  (lastStepTime w < t -> calls Early (events (dispatch t p w)) = 0%nat) /\
  (outcome (dispatch t p w) = Returned ->
   (calls Early (events (dispatch t p w)) +
    calls Normal (events (dispatch t p w)) = 1)%nat).
Proof.
  assert (L' : numLt t (lastStepTime w) = true -> lastStepTime w < t -> False).
  { intros L H. apply numLt_true in L. apply (Qlt_irrefl t).
    apply (Qlt_trans _ _ _ L H). }
  unfold dispatch. destruct (numLt t (lastStepTime w)) eqn:L.
  - rewrite earlyBranch_unfold. destruct trace as [f | ].
    + cbv zeta. destruct (step t _ true (host w)); simpl;
        repeat split; intros; try reflexivity; try (unfold calls; simpl; lia);
        try discriminate; exfalso; auto.
    + simpl. repeat split; intros; try reflexivity; try (unfold calls; simpl; lia);
        discriminate.
  - rewrite normalBranch_unfold. destruct trace as [f | ].
    + cbv zeta. destruct (step t _ false (host w)); simpl;
        repeat split; intros; try reflexivity; try (unfold calls; simpl; lia);
        discriminate.
    + simpl. repeat split; intros; try reflexivity; try (unfold calls; simpl; lia);
        discriminate.
Qed.

Lemma resetPhase_calls (t : Q) (w : World) (s : site) :
  calls s (events (resetPhase t p w)) = 0%nat.
Proof.
  destruct (doReset w || numGt t (lastStepTime w + TIME_RESET_THRESHOLD)) eqn:C.
  - rewrite resetPhase_fires by assumption. destruct trace; reflexivity.
  - rewrite resetPhase_idle by assumption. reflexivity.
Qed.

(** C6 (as the code has it).  In the calls of one tick the early branch and
    the normal branch together are taken at most once, and exactly once when
    the call returns; the early branch is never taken after a catch-up
    iteration.  So a returning call that catches up always goes on to the
    normal step. *)
Theorem branches_of_a_tick (fuel : nat) (t dt : Q) (w : World) :
  let r := draw fuel t dt w in
  (calls Early (events r) + calls Normal (events r) <= 1)%nat /\
  (calls Early (events r) = 0%nat \/ calls CatchUp (events r) = 0%nat) /\
  match outcome r with
  | Returned =>
      scheduler = "render-schedule"%string /\
      (calls Early (events r) + calls Normal (events r) = 1)%nat
      \/ scheduler <> "render-schedule"%string /\ events r = []
  | _ => True
  end.
Proof.
  cbv zeta. unfold draw.
  destruct (String.eqb scheduler "render-schedule") eqn:M.
  2:{ unfold calls. simpl. repeat split; try lia.
      right. split; [ | reflexivity ]. apply String.eqb_neq. exact M. }
  apply String.eqb_eq in M.
  rewrite runClientStep_unfold.
  pose proof (resetPhase_calls t w) as R.
  destruct (outcome (resetPhase t p w)) eqn:O1.
  2,3: rewrite andThen_stopped by congruence; rewrite O1, !R;
       repeat split; try lia.
  rewrite andThen_returned by assumption. simpl.
  set (w1 := world (resetPhase t p w)).
  destruct (catchUp_calls t fuel w1) as (CE & CN & CB).
  destruct (outcome (catchUp fuel t p w1)) eqn:O2.
  2,3: rewrite andThen_stopped by congruence; rewrite O2, !calls_app, !R, CE, CN;
       repeat split; try lia.
  rewrite andThen_returned by assumption. simpl.
  set (w2 := world (catchUp fuel t p w1)) in *.
  destruct (dispatch_calls t w2) as (DC & DL & DB & DR).
  rewrite !calls_app, !R, CE, CN, DC. simpl.
  split; [ exact DL | ]. split.
  - destruct CB as [CB | [CB | CB]].
    + right. rewrite CB. reflexivity.
    + congruence.
    + left. apply DB. exact CB.
  - destruct (outcome (dispatch t p w2)) eqn:O3; try exact I.
    left. split; [ exact M | ]. apply DR. reflexivity.
Qed.

(** *** Where the loop ends *)

Lemma catchUp_leaves_loop (t : Q) (fuel : nat) :
  forall w, outcome (catchUp fuel t p w) = Returned ->
  t <= lastStepTime (world (catchUp fuel t p w)) + p.
Proof.
  induction fuel as [ | fuel IH]; intro w;
    destruct (numGt t (lastStepTime w + p)) eqn:G.
  - simpl. rewrite G. discriminate.
  - rewrite catchUp_exit by assumption. intros _. apply numGt_false. exact G.
  - rewrite catchUp_iterate by assumption.
    destruct trace as [f | ]; [ | discriminate ]. cbv zeta.
    destruct (step (lastStepTime w + p) (p + correction w) false (host w));
      [ | discriminate ].
    simpl. apply IH.
  - rewrite catchUp_exit by assumption. intros _. apply numGt_false. exact G.
Qed.

(** *** The correction is never negative after a call *)

Lemma resetPhase_safe (t : Q) (w : World) :
  0 <= p -> 0 <= correction w ->
  Forall dtNonNegative (events (resetPhase t p w)) /\
  0 <= correction (world (resetPhase t p w)).
Proof.
  intros Hp Hc.
  assert (H2 : 0 <= p / 2).
  { apply Qle_shift_div_l; [ reflexivity | lra ]. }
  destruct (doReset w || numGt t (lastStepTime w + TIME_RESET_THRESHOLD)) eqn:C.
  - rewrite resetPhase_fires by assumption.
    destruct trace; simpl; split; auto; repeat constructor.
  - rewrite resetPhase_idle by assumption. simpl. split; auto.
Qed.

Lemma catchUp_safe (t : Q) (fuel : nat) :
  0 <= p ->
  forall w, 0 <= correction w ->
  Forall dtNonNegative (events (catchUp fuel t p w)) /\
  0 <= correction (world (catchUp fuel t p w)).
Proof.
  intro Hp. induction fuel as [ | fuel IH]; intros w Hc;
    destruct (numGt t (lastStepTime w + p)) eqn:G;
    try (rewrite catchUp_exit by assumption; simpl; split; auto).
  - simpl. rewrite G. simpl. split; auto.
  - rewrite catchUp_iterate by assumption.
    destruct trace as [f | ]; [ | simpl; split; auto ]. cbv zeta.
    assert (Hd : 0 <= p + correction w) by lra.
    destruct (step (lastStepTime w + p) (p + correction w) false (host w)).
    + simpl.
      destruct (IH (mkWorld (doReset w) (lastStepTime w + p) 0 h
                      (f (DRAWING_EXTRA t (lastStepTime w) (correction w) p)
                         (diag w)))) as [IH1 IH2].
      { simpl. apply Qle_refl. }
      split; [ | exact IH2 ].
      constructor; [ exact I | ]. constructor; [ exact Hd | exact IH1 ].
    + simpl. split; [ | exact Hc ].
      constructor; [ exact I | ]. constructor; [ exact Hd | constructor ].
Qed.

Lemma dispatch_safe (t : Q) (w : World) :
  0 <= correction w -> t <= lastStepTime w + p ->
  Forall dtNonNegative (events (dispatch t p w)) /\
  0 <= correction (world (dispatch t p w)).
Proof.
  intros Hc Ht. unfold dispatch.
  destruct (numLt t (lastStepTime w)) eqn:L.
  - apply numLt_true in L. rewrite earlyBranch_unfold.
    destruct trace as [f | ]; [ | simpl; split; auto ]. cbv zeta.
    assert (Hd : 0 <= (if numLt (t - lastStepTime w + correction w) 0 then 0
                       else t - lastStepTime w + correction w)).
    { destruct (numLt (t - lastStepTime w + correction w) 0) eqn:L0.
      - apply Qle_refl.
      - apply numLt_false in L0. exact L0. }
    destruct (step t _ true (host w)); simpl;
      (split; [ repeat constructor; exact Hd | lra ]).
  - apply numLt_false in L. rewrite normalBranch_unfold.
    destruct trace as [f | ]; [ | simpl; split; auto ]. cbv zeta.
    assert (Hd : 0 <= t - lastStepTime w + correction w) by lra.
    destruct (step t _ false (host w)); simpl;
      (split; [ repeat constructor; exact Hd | lra ]).
Qed.

Lemma runClientStep_safe (fuel : nat) (t dt : Q) (w : World) :
  0 <= p -> 0 <= correction w ->
  Forall dtNonNegative (events (runClientStep fuel t dt w)) /\
  0 <= correction (world (runClientStep fuel t dt w)).
Proof.
  intros Hp Hc. rewrite runClientStep_unfold.
  destruct (resetPhase_safe t w Hp Hc) as [R1 R2].
  destruct (outcome (resetPhase t p w)) eqn:O1.
  2,3: rewrite andThen_stopped by congruence; split; assumption.
  rewrite andThen_returned by assumption. simpl.
  set (w1 := world (resetPhase t p w)) in *.
  destruct (catchUp_safe t fuel Hp w1 R2) as [C1 C2].
  destruct (outcome (catchUp fuel t p w1)) eqn:O2.
  2,3: rewrite andThen_stopped by congruence;
       split; [ apply Forall_app; split; assumption | assumption ].
  rewrite andThen_returned by assumption. simpl.
  pose proof (catchUp_leaves_loop t fuel w1 O2) as Hl.
  set (w2 := world (catchUp fuel t p w1)) in *.
  destruct (dispatch_safe t w2 C2 Hl) as [D1 D2].
  split; [ | exact D2 ].
  apply Forall_app. split; [ exact R1 | ].
  apply Forall_app. split; assumption.
Qed.

Lemma draw_safe (fuel : nat) (t dt : Q) (w : World) :
  0 <= p -> 0 <= correction w ->
  Forall dtNonNegative (events (draw fuel t dt w)) /\
  0 <= correction (world (draw fuel t dt w)).
Proof.
  intros Hp Hc. unfold draw.
  destruct (String.eqb scheduler "render-schedule").
  - apply runClientStep_safe; assumption.
  - simpl. split; [ constructor | exact Hc ].
Qed.

Lemma feed_safe (fuel : nat) (ins : list input) :
  0 <= p ->
  forall w, 0 <= correction w ->
  Forall dtNonNegative (events (feed fuel ins w)) /\
  0 <= correction (world (feed fuel ins w)).
Proof.
  intro Hp. induction ins as [ | [ | t dt] ins IH]; intros w Hc.
  - simpl. split; [ constructor | exact Hc ].
  - simpl. apply IH. exact Hc.
  - simpl. destruct (draw_safe fuel t dt w Hp Hc) as [T1 T2].
    destruct (IH (world (draw fuel t dt w)) T2) as [F1 F2].
    destruct (outcome (draw fuel t dt w)); simpl;
      try (split; [ apply Forall_app; split; assumption | assumption ]).
    split; assumption.
Qed.

(** C4 (as the code has it).  With a positive period and a correction that
    starts non-negative (it starts at zero), every [dt] handed to the step
    function is non-negative, over any sequence of calls of [draw] and
    reset signals; the timestamps need not even be ordered.  Only the early
    branch clamps its [dt]; the loop and the normal branch rely on the
    correction, which every call leaves non-negative. *)
Theorem dt_never_negative (fuel : nat) (ins : list input) (w : World) :
  0 < p ->
  0 <= correction w ->
  Forall dtNonNegative (events (feed fuel ins w)).
Proof.
  intros Hp Hc. apply feed_safe; [ apply Qlt_le_weak | ]; assumption.
Qed.

Lemma dispatch_returned_correction (t : Q) (w : World) :
  t <= lastStepTime w + p ->
  outcome (dispatch t p w) = Returned ->
  0 <= correction (world (dispatch t p w)).
Proof.
  intro Ht. unfold dispatch. destruct (numLt t (lastStepTime w)) eqn:L.
  - apply numLt_true in L. rewrite earlyBranch_unfold.
    destruct trace; [ | discriminate ]. cbv zeta.
    destruct (step t _ true (host w)); [ | discriminate ].
    simpl. intros _. lra.
  - rewrite normalBranch_unfold.
    destruct trace; [ | discriminate ]. cbv zeta.
    destruct (step t _ false (host w)); [ | discriminate ].
    simpl. intros _. lra.
Qed.

Lemma runClientStep_returned_correction (fuel : nat) (t dt : Q) (w : World) :
  outcome (runClientStep fuel t dt w) = Returned ->
  0 <= correction (world (runClientStep fuel t dt w)).
Proof.
  rewrite runClientStep_unfold.
  destruct (outcome (resetPhase t p w)) eqn:O1.
  2,3: rewrite andThen_stopped by congruence; congruence.
  rewrite andThen_returned by assumption. simpl.
  destruct (outcome (catchUp fuel t p (world (resetPhase t p w)))) eqn:O2.
  2,3: rewrite andThen_stopped by congruence; congruence.
  rewrite andThen_returned by assumption. simpl.
  apply dispatch_returned_correction.
  apply catchUp_leaves_loop. exact O2.
Qed.

(** C10.  In render-schedule mode with a positive period, whenever a call
    of [draw] returns, whatever the fields were before, [correction] is not
    negative: the early branch leaves [lastStepTime - t] with
    [t < lastStepTime], the normal branch leaves [lastStepTime - t] after
    the loop's exit test.  It then stays non-negative through every later
    call and reset signal. *)
Theorem correction_nonnegative_on_return (n : nat) (t dt : Q) (w : World) :
  scheduler = "render-schedule"%string ->
  0 < p ->
  outcome (draw n t dt w) = Returned ->
  0 <= correction (world (draw n t dt w)) /\
  (forall (m : nat) (ins : list input),
     0 <= correction (world (feed m ins (world (draw n t dt w))))).
Proof.
  intros Hm Hp. rewrite (mode_on Hm). intro O.
  pose proof (runClientStep_returned_correction n t dt w O) as C.
  split; [ exact C | ].
  intros m ins. apply feed_safe; [ apply Qlt_le_weak; exact Hp | exact C ].
Qed.

(** *** Failures *)

Lemma andThen_propagates (r : Result) (k : Cmd) :
  failurePropagates r ->
  (forall w, failurePropagates (k w)) ->
  failurePropagates (andThen r k).
Proof.
  intros Hr Hk. unfold andThen.
  destruct (outcome r) eqn:O; try exact Hr.
  specialize (Hk (world r)). unfold failurePropagates in *.
  rewrite O in Hr. simpl.
  destruct (outcome (k (world r))) as [ | [ | ] | ].
  - apply existsb_false_app; assumption.
  - destruct Hk as [Hn Hk]. split; [ exact Hn | ].
    apply existsb_false_app; assumption.
  - destruct Hk as (es & s & time & dt & f & E & Hes).
    exists (events r ++ es), s, time, dt, f. split.
    + rewrite E. apply app_assoc.
    + apply existsb_false_app; assumption.
  - apply existsb_false_app; assumption.
Qed.

Lemma seq_propagates (c1 c2 : Cmd) :
  (forall w, failurePropagates (c1 w)) ->
  (forall w, failurePropagates (c2 w)) ->
  forall w, failurePropagates ((c1 ;; c2) w).
Proof. intros H1 H2 w. unfold seq. apply andThen_propagates; auto. Qed.

Lemma skip_propagates (w : World) : failurePropagates (skip w).
Proof. reflexivity. Qed.

Lemma assign_propagates (g : World -> World) (w : World) :
  failurePropagates (assign g w).
Proof. reflexivity. Qed.

Lemma callTrace_propagates (m : World -> traceMsg) (w : World) :
  failurePropagates (callTrace m w).
Proof.
  unfold callTrace, failurePropagates.
  destruct trace; simpl; [ reflexivity | split; reflexivity ].
Qed.

Lemma callStep_propagates (s : site) (time dt : Q) (b : bool) (w : World) :
  failurePropagates (callStep s time dt b w).
Proof.
  unfold callStep, failurePropagates.
  destruct (step time dt b (host w)); simpl; [ reflexivity | ].
  exists [], s, time, dt, b. split; reflexivity.
Qed.

Lemma catchUp_propagates (t : Q) (fuel : nat) :
  forall w, failurePropagates (catchUp fuel t p w).
Proof.
  induction fuel as [ | fuel IH]; intro w; simpl;
    destruct (numGt t (lastStepTime w + p)); try apply skip_propagates.
  - reflexivity.
  - repeat (apply seq_propagates; intros);
      auto using assign_propagates, callTrace_propagates, callStep_propagates.
Qed.

Lemma dispatch_propagates (t : Q) (w : World) :
  failurePropagates (dispatch t p w).
Proof.
  unfold dispatch, earlyBranch, normalBranch.
  destruct (numLt t (lastStepTime w));
    repeat (apply seq_propagates; intros);
    auto using assign_propagates, callTrace_propagates, callStep_propagates.
Qed.

Lemma resetPhase_propagates (t : Q) (w : World) :
  failurePropagates (resetPhase t p w).
Proof.
  unfold resetPhase.
  destruct (doReset w || numGt t (lastStepTime w + TIME_RESET_THRESHOLD));
    [ | apply skip_propagates ].
  repeat (apply seq_propagates; intros);
    auto using assign_propagates, callTrace_propagates.
Qed.

(** C8 (as the code has it).  [draw] returns no value, and it catches
    nothing: a step call that throws is the last thing the call does (no
    trace call follows it) and the call ends by throwing that failure to its
    caller; a call ends with a [TypeError] only when the trace object is
    missing; and a call that ends otherwise made no step call that threw. *)
Theorem draw_propagates_failures (fuel : nat) (t dt : Q) (w : World) :
  failurePropagates (draw fuel t dt w).
Proof.
  unfold draw. destruct (String.eqb scheduler "render-schedule");
    [ | apply skip_propagates ].
  unfold runClientStep.
  repeat (apply seq_propagates; intros);
    auto using resetPhase_propagates, catchUp_propagates, dispatch_propagates.
Qed.

(** *** Fuel *)

(** A run that did not exhaust its fuel is the same with more fuel. *)
Lemma catchUp_more_fuel (t : Q) (n : nat) :
  forall w, outcome (catchUp n t p w) <> OutOfFuel ->
  forall m, (n <= m)%nat -> catchUp m t p w = catchUp n t p w.
Proof.
  induction n as [ | n IH]; intros w H m Hm;
    destruct (numGt t (lastStepTime w + p)) eqn:G;
    try (rewrite !catchUp_exit by assumption; reflexivity).
  - exfalso. apply H. simpl. rewrite G. reflexivity.
  - destruct m as [ | m]; [ lia | ].
    revert H. rewrite !catchUp_iterate by assumption.
    destruct trace as [f | ]; [ | reflexivity ]. cbv zeta.
    destruct (step (lastStepTime w + p) (p + correction w) false (host w));
      [ | reflexivity ].
    cbn [outcome]. intro H. rewrite (IH _ H m) by lia. reflexivity.
Qed.

Lemma draw_more_fuel (t dt : Q) (w : World) (n m : nat) :
  outcome (draw n t dt w) <> OutOfFuel -> (n <= m)%nat ->
  draw m t dt w = draw n t dt w.
Proof.
  unfold draw. destruct (String.eqb scheduler "render-schedule");
    [ | reflexivity ].
  rewrite !runClientStep_unfold. intros H Hm.
  destruct (outcome (resetPhase t p w)) eqn:O1.
  2,3: rewrite !andThen_stopped by congruence; reflexivity.
  rewrite (andThen_returned _
             (fun w1 => andThen (catchUp m t p w1) (dispatch t p)) O1).
  rewrite (andThen_returned _
             (fun w1 => andThen (catchUp n t p w1) (dispatch t p)) O1) in H |- *.
  cbn [outcome] in H.
  assert (C : outcome (catchUp n t p (world (resetPhase t p w))) <> OutOfFuel).
  { intro E. apply H. rewrite andThen_stopped; congruence. }
  rewrite (catchUp_more_fuel t n _ C m Hm). reflexivity.
Qed.

(** ** Further properties of the method *)

(** *** The fields after a call *)

Lemma andThen_world (P : World -> Prop) (r : Result) (k : Cmd) :
  P (world r) ->
  (outcome r = Returned -> P (world (k (world r)))) ->
  P (world (andThen r k)).
Proof.
  intros Hr Hk. unfold andThen.
  destruct (outcome r); try exact Hr. simpl. apply Hk. reflexivity.
Qed.

Lemma catchUp_advances (t : Q) (fuel : nat) :
  0 <= p ->
  forall w, lastStepTime w <= lastStepTime (world (catchUp fuel t p w)).
Proof.
  intro Hp. induction fuel as [ | fuel IH]; intro w;
    destruct (numGt t (lastStepTime w + p)) eqn:G;
    try (rewrite catchUp_exit by assumption; apply Qle_refl).
  - simpl. rewrite G. apply Qle_refl.
  - rewrite catchUp_iterate by assumption.
    destruct trace as [f | ]; [ | apply Qle_refl ]. cbv zeta.
    destruct (step (lastStepTime w + p) (p + correction w) false (host w));
      [ | apply Qle_refl ].
    cbn [world].
    eapply Qle_trans; [ | apply IH ]. simpl. lra.
Qed.

Lemma dispatch_advances (t : Q) (w : World) :
  0 <= p -> lastStepTime w <= lastStepTime (world (dispatch t p w)).
Proof.
  intro Hp. unfold dispatch. destruct (numLt t (lastStepTime w)).
  - rewrite earlyBranch_unfold. destruct trace; [ | apply Qle_refl ].
    cbv zeta. destruct (step t _ true (host w)); apply Qle_refl.
  - rewrite normalBranch_unfold. destruct trace; [ | apply Qle_refl ].
    cbv zeta. destruct (step t _ false (host w)); simpl; lra.
Qed.

(** X2.  With a period that is not negative, a call on which the reset test
    fails never moves [lastStepTime] back, in any mode and however the call
    ends. *)
Theorem lastStepTime_never_goes_back (fuel : nat) (t dt : Q) (w : World) :
  0 <= p ->
  doReset w = false ->
  t <= lastStepTime w + TIME_RESET_THRESHOLD ->
  lastStepTime w <= lastStepTime (world (draw fuel t dt w)).
Proof.
  intros Hp Hr Ht. unfold draw.
  destruct (String.eqb scheduler "render-schedule"); [ | apply Qle_refl ].
  rewrite runClientStep_unfold, resetPhase_idle.
  2:{ rewrite Hr. simpl. apply numGt_false. exact Ht. }
  rewrite andThen_returned by reflexivity. cbn [world].
  apply andThen_world with (P := fun v => lastStepTime w <= lastStepTime v).
  - apply catchUp_advances. exact Hp.
  - intros _. eapply Qle_trans; [ | apply dispatch_advances; exact Hp ].
    apply catchUp_advances. exact Hp.
Qed.

Lemma dispatch_returned_fields (t : Q) (w : World) :
  t <= lastStepTime w + p ->
  outcome (dispatch t p w) = Returned ->
  correction (world (dispatch t p w)) =
    lastStepTime (world (dispatch t p w)) - t /\
  t <= lastStepTime (world (dispatch t p w)).
Proof.
  intro Ht. unfold dispatch. destruct (numLt t (lastStepTime w)) eqn:L.
  - apply numLt_true in L. rewrite earlyBranch_unfold.
    destruct trace; [ | discriminate ]. cbv zeta.
    destruct (step t _ true (host w)); [ | discriminate ].
    simpl. intros _. split; [ reflexivity | apply Qlt_le_weak; exact L ].
  - rewrite normalBranch_unfold.
    destruct trace; [ | discriminate ]. cbv zeta.
    destruct (step t _ false (host w)); [ | discriminate ].
    simpl. intros _. split; [ reflexivity | exact Ht ].
Qed.

Lemma runClientStep_returned_fields (fuel : nat) (t dt : Q) (w : World) :
  outcome (runClientStep fuel t dt w) = Returned ->
  correction (world (runClientStep fuel t dt w)) =
    lastStepTime (world (runClientStep fuel t dt w)) - t /\
  t <= lastStepTime (world (runClientStep fuel t dt w)).
Proof.
  rewrite runClientStep_unfold.
  destruct (outcome (resetPhase t p w)) eqn:O1.
  2,3: rewrite andThen_stopped by congruence; congruence.
  rewrite andThen_returned by assumption. cbn [world outcome].
  destruct (outcome (catchUp fuel t p (world (resetPhase t p w)))) eqn:O2.
  2,3: rewrite andThen_stopped by congruence; congruence.
  rewrite andThen_returned by assumption. cbn [world outcome].
  apply dispatch_returned_fields.
  apply catchUp_leaves_loop. exact O2.
Qed.

(** X3.  Whenever a call of [draw] returns in render-schedule mode, whatever
    the fields and the period were, [lastStepTime] is at or ahead of [t] and
    [correction] is exactly [lastStepTime - t]. *)
Theorem fields_on_return (fuel : nat) (t dt : Q) (w : World) :
  scheduler = "render-schedule"%string ->
  outcome (draw fuel t dt w) = Returned ->
  correction (world (draw fuel t dt w)) =
    lastStepTime (world (draw fuel t dt w)) - t /\
  t <= lastStepTime (world (draw fuel t dt w)).
Proof.
  intro Hm. rewrite (mode_on Hm). apply runClientStep_returned_fields.
Qed.

(** *** A tick that resets, a tick that comes early *)

(** After the re-centering, with a period that is not negative, the loop
    test and the early test both fail. *)
Lemma recentred_tests (t : Q) :
  0 <= p ->
  numGt t (t - p / 2 + p) = false /\ numLt t (t - p / 2) = false.
Proof.
  intro Hp.
  assert (H2 : 0 <= p / 2).
  { apply Qle_shift_div_l; [ reflexivity | lra ]. }
  assert (E2 : p / 2 + p / 2 == p) by field.
  split; [ apply numGt_false | apply numLt_false ]; lra.
Qed.

(** X4.  When the reset test succeeds (trace object present, period not
    negative), the old [lastStepTime] and [correction] play no part: the
    loop is not entered and the early branch is not taken; the call makes
    one step call, from the normal branch, at time [t] with
    [dt = t - (t - p/2) + p/2], and leaves [lastStepTime = t - p/2 + p] and
    [correction = lastStepTime - t]. *)
Theorem reset_tick (f : traceMsg -> D -> D) (fuel : nat) (t dt : Q) (w : World) :
  scheduler = "render-schedule"%string ->
  trace = Some f ->
  0 <= p ->
  doReset w = true \/ lastStepTime w + TIME_RESET_THRESHOLD < t ->
  exists ok : bool,
    stepCalls (events (draw fuel t dt w)) =
      [StepCall Normal t (t - (t - p / 2) + p / 2) false ok] /\
    lastStepTime (world (draw fuel t dt w)) = t - p / 2 + p /\
    correction (world (draw fuel t dt w)) = t - p / 2 + p - t /\
    outcome (draw fuel t dt w) = if ok then Returned else Threw StepFailure.
Proof.
  intros Hm Htr Hp H.
  assert (C : doReset w || numGt t (lastStepTime w + TIME_RESET_THRESHOLD) = true).
  { apply orb_true_iff. destruct H as [H | H]; [ left; exact H | right ].
    apply numGt_true. exact H. }
  destruct (recentred_tests t Hp) as [G L].
  rewrite (mode_on Hm), runClientStep_unfold.
  rewrite resetPhase_fires by assumption. rewrite Htr.
  rewrite andThen_returned by reflexivity. cbn [events world outcome].
  rewrite catchUp_exit by exact G.
  rewrite andThen_returned by reflexivity. cbn [events world outcome].
  unfold dispatch. cbn [lastStepTime]. rewrite L.
  rewrite normalBranch_unfold, Htr. cbv zeta. cbn [lastStepTime correction host].
  destruct (step t (t - (t - p / 2) + p / 2) false (host w)).
  - exists true. simpl. repeat split; reflexivity.
  - exists false. simpl. repeat split; reflexivity.
Qed.

(** X5.  With no reset pending, the trace object present and a period that
    is not negative, a tick with [t < lastStepTime] makes one step call,
    from the early branch, flagged [true], with [dt] the clamped
    [t - lastStepTime + correction]; [lastStepTime] is unchanged and
    [correction] becomes [lastStepTime - t]. *)
Theorem early_tick (f : traceMsg -> D -> D) (fuel : nat) (t dt : Q) (w : World) :
  scheduler = "render-schedule"%string ->
  trace = Some f ->
  0 <= p ->
  doReset w = false ->
  t < lastStepTime w ->
  exists ok : bool,
    stepCalls (events (draw fuel t dt w)) =
      [StepCall Early t
         (if numLt (t - lastStepTime w + correction w) 0 then 0
          else t - lastStepTime w + correction w) true ok] /\
    lastStepTime (world (draw fuel t dt w)) = lastStepTime w /\
    correction (world (draw fuel t dt w)) = lastStepTime w - t /\
    outcome (draw fuel t dt w) = if ok then Returned else Threw StepFailure.
Proof.
  intros Hm Htr Hp Hr Ht.
  rewrite (mode_on Hm), runClientStep_unfold.
  rewrite resetPhase_idle.
  2:{ rewrite Hr. simpl. apply numGt_false. unfold TIME_RESET_THRESHOLD. lra. }
  rewrite andThen_returned by reflexivity. cbn [events world outcome].
  rewrite catchUp_exit.
  2:{ apply numGt_false. lra. }
  rewrite andThen_returned by reflexivity. cbn [events world outcome].
  unfold dispatch.
  replace (numLt t (lastStepTime w)) with true.
  2:{ symmetry. apply numLt_true. exact Ht. }
  rewrite earlyBranch_unfold, Htr. cbv zeta.
  destruct (step t _ true (host w)).
  - exists true. simpl. repeat split; reflexivity.
  - exists false. simpl. repeat split; reflexivity.
Qed.

(** *** How far the loop goes *)

Lemma calls_catchUp_iteration (m : traceMsg) (time dt : Q) (b ok : bool)
    (es : list event) :
  calls CatchUp (TraceCall m :: StepCall CatchUp time dt b ok :: es) =
  S (calls CatchUp es).
Proof. reflexivity. Qed.

(** After the loop, [lastStepTime] has been advanced once per call. *)
Lemma catchUp_steps (t : Q) (fuel : nat) :
  forall w, outcome (catchUp fuel t p w) = Returned ->
  lastStepTime (world (catchUp fuel t p w)) =
  stepsAhead (calls CatchUp (events (catchUp fuel t p w))) (lastStepTime w) p.
Proof.
  induction fuel as [ | fuel IH]; intro w;
    destruct (numGt t (lastStepTime w + p)) eqn:G;
    try (rewrite catchUp_exit by assumption; intros _; reflexivity).
  - simpl. rewrite G. discriminate.
  - rewrite catchUp_iterate by assumption.
    destruct trace as [f | ]; [ | discriminate ]. cbv zeta.
    destruct (step (lastStepTime w + p) (p + correction w) false (host w));
      [ | discriminate ].
    cbn [outcome world events]. intro O.
    rewrite calls_catchUp_iteration, (IH _ O). reflexivity.
Qed.

(** A loop that was entered and returned made a call and left
    [lastStepTime] behind [t]. *)
Lemma catchUp_entered (t : Q) (fuel : nat) (w : World) :
  lastStepTime w + p < t ->
  outcome (catchUp fuel t p w) = Returned ->
  (1 <= calls CatchUp (events (catchUp fuel t p w)))%nat /\
  lastStepTime (world (catchUp fuel t p w)) < t.
Proof.
  intros Hl. assert (G : numGt t (lastStepTime w + p) = true)
    by (apply numGt_true; exact Hl).
  destruct fuel as [ | fuel]; [ simpl; rewrite G; discriminate | ].
  rewrite catchUp_iterate by assumption.
  destruct trace as [f | ]; [ | discriminate ]. cbv zeta.
  destruct (step (lastStepTime w + p) (p + correction w) false (host w));
    [ | discriminate ].
  cbn [outcome world events]. intro O. split.
  - rewrite calls_catchUp_iteration. lia.
  - apply catchUp_stays_behind; [ exact Hl | exact O ].
Qed.

Lemma dispatch_late (t : Q) (w : World) :
  lastStepTime w < t ->
  outcome (dispatch t p w) = Returned ->
  lastStepTime (world (dispatch t p w)) = lastStepTime w + p /\
  calls Normal (events (dispatch t p w)) = 1%nat.
Proof.
  intros Ht. unfold dispatch.
  replace (numLt t (lastStepTime w)) with false.
  2:{ symmetry. apply numLt_false. apply Qlt_le_weak. exact Ht. }
  rewrite normalBranch_unfold.
  destruct trace; [ | discriminate ]. cbv zeta.
  destruct (step t _ false (host w)); [ | discriminate ].
  intros _. split; reflexivity.
Qed.

(** X6.  With no reset on the tick and [t] more than one period past
    [lastStepTime], a call that returns has made [n >= 1] calls from the
    loop, where [n] rounds of [lastStepTime += p] stay below [t] and one
    more does not; then it has made the normal step and no early step, and
    [lastStepTime] ends [n + 1] rounds ahead. *)
Theorem catch_up_count (fuel : nat) (t dt : Q) (w : World) :
  scheduler = "render-schedule"%string ->
  doReset w = false ->
  t <= lastStepTime w + TIME_RESET_THRESHOLD ->
  lastStepTime w + p < t ->
  outcome (draw fuel t dt w) = Returned ->
  let n := calls CatchUp (events (draw fuel t dt w)) in
  (1 <= n)%nat /\
  stepsAhead n (lastStepTime w) p < t /\
  t <= stepsAhead n (lastStepTime w) p + p /\
  calls Normal (events (draw fuel t dt w)) = 1%nat /\
  calls Early (events (draw fuel t dt w)) = 0%nat /\
  lastStepTime (world (draw fuel t dt w)) = stepsAhead n (lastStepTime w) p + p.
Proof.
  intros Hm Hr Ht Hl. cbv zeta.
  rewrite (mode_on Hm), runClientStep_unfold, resetPhase_idle.
  2:{ rewrite Hr. simpl. apply numGt_false. exact Ht. }
  rewrite andThen_returned by reflexivity. cbn [events world outcome app].
  destruct (outcome (catchUp fuel t p w)) eqn:O2.
  2,3: rewrite andThen_stopped by congruence; congruence.
  rewrite andThen_returned by assumption. cbn [events world outcome].
  intro O3.
  pose proof (catchUp_steps t fuel w O2) as G.
  pose proof (catchUp_leaves_loop t fuel w O2) as L.
  destruct (catchUp_entered t fuel w Hl O2) as [N B].
  destruct (catchUp_calls t fuel w) as (CE & CN & _).
  destruct (dispatch_calls t (world (catchUp fuel t p w))) as (DC & _ & DE & _).
  destruct (dispatch_late t _ B O3) as [DL DN].
  rewrite !calls_app, CE, CN, DC, DN, (DE B), DL, Nat.add_0_r.
  rewrite G in B, L |- *.
  repeat split; try assumption; reflexivity.
Qed.




(** *** A period that is not positive *)

Lemma catchUp_never_returns (t : Q) (fuel : nat) :
  p <= 0 ->
  forall w, lastStepTime w + p < t ->
  outcome (catchUp fuel t p w) <> Returned.
Proof.
  intro Hp. induction fuel as [ | fuel IH]; intros w Hl;
    assert (G : numGt t (lastStepTime w + p) = true)
      by (apply numGt_true; exact Hl).
  - simpl. rewrite G. discriminate.
  - rewrite catchUp_iterate by assumption.
    destruct trace as [f | ]; [ | discriminate ]. cbv zeta.
    destruct (step (lastStepTime w + p) (p + correction w) false (host w));
      [ | discriminate ].
    cbn [outcome]. apply IH. simpl. lra.
Qed.

(** X11.  With a period that is zero or negative, a call that enters the
    loop never returns, whatever the fuel: the loop is entered when no
    reset happens and [t > lastStepTime + p], and when a reset happens and
    [t] exceeds the re-centred [t - p/2 + p]. *)
Theorem nonpositive_period_never_returns (fuel : nat) (t dt : Q) (w : World) :
  scheduler = "render-schedule"%string ->
  p <= 0 ->
  (doReset w = false /\ t <= lastStepTime w + TIME_RESET_THRESHOLD /\
   lastStepTime w + p < t)
  \/ ((doReset w = true \/ lastStepTime w + TIME_RESET_THRESHOLD < t) /\
      t - p / 2 + p < t) ->
  outcome (draw fuel t dt w) <> Returned.
Proof.
  intros Hm Hp H. rewrite (mode_on Hm), runClientStep_unfold.
  destruct H as [(Hr & Ht & Hl) | [H Hn]].
  - rewrite resetPhase_idle.
    2:{ rewrite Hr. simpl. apply numGt_false. exact Ht. }
    rewrite andThen_returned by reflexivity. cbn [events world outcome].
    pose proof (catchUp_never_returns t fuel Hp w Hl) as N.
    rewrite andThen_stopped by exact N. exact N.
  - assert (C : doReset w || numGt t (lastStepTime w + TIME_RESET_THRESHOLD)
                = true).
    { apply orb_true_iff. destruct H as [H | H]; [ left; exact H | right ].
      apply numGt_true. exact H. }
    rewrite resetPhase_fires by assumption.
    destruct trace as [f | ]; [ | rewrite andThen_stopped; discriminate ].
    rewrite andThen_returned by reflexivity. cbn [events world outcome].
    match goal with
    | |- context [catchUp fuel t p ?a] =>
        assert (N : outcome (catchUp fuel t p a) <> Returned)
    end.
    { apply catchUp_never_returns; [ exact Hp | exact Hn ]. }
    rewrite andThen_stopped by exact N. exact N.
Qed.

(** *** The times handed to the step function *)

(** The two branches hand the tick's own [t] to the step function. *)
Lemma dispatch_Forall_at (P : event -> Prop) (t : Q) (w : World) :
  (forall m, P (TraceCall m)) ->
  (forall s dt b ok, P (StepCall s t dt b ok)) ->
  Forall P (events (dispatch t p w)).
Proof.
  intros HT HS. unfold dispatch. destruct (numLt t (lastStepTime w)).
  - rewrite earlyBranch_unfold. destruct trace as [f | ]; [ | constructor ].
    cbv zeta. destruct (step t _ true (host w)); simpl; repeat constructor; auto.
  - rewrite normalBranch_unfold. destruct trace as [f | ]; [ | constructor ].
    cbv zeta. destruct (step t _ false (host w)); simpl; repeat constructor; auto.
Qed.

(** X12.  No step call is ever given a time later than the tick's own [t]:
    the loop announces steps strictly before [t], the two branches
    announce [t] itself.  This holds from any fields, for any period and
    however the call ends. *)
Theorem step_times_never_ahead (fuel : nat) (t dt : Q) (w : World) :
  Forall (timeAtMost t) (events (draw fuel t dt w)).
Proof.
  unfold draw. destruct (String.eqb scheduler "render-schedule");
    [ | constructor ].
  rewrite runClientStep_unfold.
  apply andThen_Forall.
  - destruct (doReset w || numGt t (lastStepTime w + TIME_RESET_THRESHOLD)) eqn:C.
    + rewrite resetPhase_fires by assumption.
      destruct trace; repeat constructor.
    + rewrite resetPhase_idle by assumption. constructor.
  - intros _. apply andThen_Forall.
    + generalize (world (resetPhase t p w)). clear w.
      induction fuel as [ | fuel IH]; intro w;
        destruct (numGt t (lastStepTime w + p)) eqn:G;
        try (rewrite catchUp_exit by assumption; constructor).
      * simpl. rewrite G. constructor.
      * rewrite catchUp_iterate by assumption. apply numGt_true in G.
        destruct trace as [f | ]; [ | constructor ]. cbv zeta.
        destruct (step (lastStepTime w + p) (p + correction w) false (host w)).
        -- cbn [events]. constructor; [ exact I | ].
           constructor; [ apply Qlt_le_weak; exact G | apply IH ].
        -- cbn [events]. constructor; [ exact I | ].
           constructor; [ apply Qlt_le_weak; exact G | constructor ].
    + intros _. apply dispatch_Forall_at; intros; [ exact I | apply Qle_refl ].
Qed.

Lemma catchUp_times_after (t t0 : Q) (fuel : nat) :
  0 <= p ->
  forall w, t0 <= lastStepTime w + p ->
  Forall (timeAtLeast t0) (events (catchUp fuel t p w)).
Proof.
  intro Hp. induction fuel as [ | fuel IH]; intros w Hw;
    destruct (numGt t (lastStepTime w + p)) eqn:G;
    try (rewrite catchUp_exit by assumption; constructor).
  - simpl. rewrite G. constructor.
  - rewrite catchUp_iterate by assumption.
    destruct trace as [f | ]; [ | constructor ]. cbv zeta.
    destruct (step (lastStepTime w + p) (p + correction w) false (host w)).
    + cbn [events]. constructor; [ exact I | ].
      constructor; [ exact Hw | ]. apply IH. simpl. lra.
    + cbn [events]. constructor; [ exact I | ].
      constructor; [ exact Hw | constructor ].
Qed.

(** X13.  After a call at [t0] that returned, with a period that is not
    negative, no step call of the next call of [draw], at any [t1 >= t0], is
    given a time before [t0], however that next call ends: the times handed
    to the step function do not go back from one tick to the next. *)
Theorem step_times_follow_the_previous_tick (fuel fuel' : nat)
    (t0 dt0 t1 dt1 : Q) (w : World) :
  scheduler = "render-schedule"%string ->
  0 <= p ->
  outcome (draw fuel t0 dt0 w) = Returned ->
  t0 <= t1 ->
  Forall (timeAtLeast t0)
    (events (draw fuel' t1 dt1 (world (draw fuel t0 dt0 w)))).
Proof.
  intros Hm Hp O1 H01. rewrite !(mode_on Hm) in *.
  destruct (runClientStep_returned_fields fuel t0 dt0 w O1) as [_ Hl].
  set (w1 := world (runClientStep fuel t0 dt0 w)) in *.
  rewrite runClientStep_unfold.
  assert (H2 : 0 <= p / 2).
  { apply Qle_shift_div_l; [ reflexivity | lra ]. }
  assert (E2 : p / 2 + p / 2 == p) by field.
  apply andThen_Forall.
  - destruct (doReset w1 || numGt t1 (lastStepTime w1 + TIME_RESET_THRESHOLD))
      eqn:C.
    + rewrite resetPhase_fires by assumption.
      destruct trace; repeat constructor.
    + rewrite resetPhase_idle by assumption. constructor.
  - intros _. apply andThen_Forall.
    + apply catchUp_times_after; [ exact Hp | ].
      destruct (doReset w1 || numGt t1 (lastStepTime w1 + TIME_RESET_THRESHOLD))
        eqn:C.
      * rewrite resetPhase_fires by assumption.
        destruct trace; cbn [world lastStepTime]; lra.
      * rewrite resetPhase_idle by assumption. cbn [world]. lra.
    + intros _. apply dispatch_Forall_at; intros; [ exact I | exact H01 ].
Qed.
End Scheduler.

Arguments mkWorld {W D}.
Arguments doReset {W D}.
Arguments lastStepTime {W D}.
Arguments correction {W D}.
Arguments host {W D}.
Arguments diag {W D}.
Arguments mkResult {W D}.
Arguments events {W D}.
Arguments world {W D}.
Arguments outcome {W D}.
Arguments skip {W D}.
Arguments andThen {W D}.
Arguments seq {W D}.
Arguments onStepReset {W D}.



(** ** Two runs with different collaborators *)

Section Simulation.

Variables W1 W2 D1 D2 : Type.
Variable step1 : Q -> Q -> bool -> W1 -> stepResult W1.
Variable step2 : Q -> Q -> bool -> W2 -> stepResult W2.
Variable trace1 : option (traceMsg -> D1 -> D1).
Variable trace2 : option (traceMsg -> D2 -> D2).
Variable stepPeriod : Q.
Variable scheduler : string.

(** The two step functions keep their states related and throw together;
    the two trace objects are both there or both missing. *)
Variable R : W1 -> W2 -> Prop.

Hypothesis step_related : forall time dt b h1 h2, R h1 h2 ->
  match step1 time dt b h1, step2 time dt b h2 with
  | Returns x, Returns y => R x y
  | Throws x, Throws y => R x y
  | _, _ => False
  end.

Hypothesis trace_related :
  match trace1, trace2 with
  | Some _, Some _ | None, None => True
  | _, _ => False
  end.

Local Abbreviation sameFields w1 w2 :=
  (doReset w1 = doReset w2 /\ lastStepTime w1 = lastStepTime w2 /\
   correction w1 = correction w2 /\ R (host w1) (host w2)).

Local Abbreviation sameRun r1 r2 :=
  (events r1 = events r2 /\ outcome r1 = outcome r2 /\
   sameFields (world r1) (world r2)).

Lemma andThen_related (r1 : Result W1 D1) (r2 : Result W2 D2) k1 k2 :
  sameRun r1 r2 ->
  (forall w1 w2, sameFields w1 w2 -> sameRun (k1 w1) (k2 w2)) ->
  sameRun (andThen r1 k1) (andThen r2 k2).
Proof.
  intros (He & Ho & Hw) Hk. unfold andThen. rewrite <- Ho.
  destruct (outcome r1) eqn:O; try (repeat split; try tauto; congruence).
  destruct (Hk _ _ Hw) as (Ke & Ko & Kw). simpl.
  rewrite He, Ke. repeat split; tauto.
Qed.

Lemma resetPhase_related (t : Q) w1 w2 :
  sameFields w1 w2 ->
  sameRun (resetPhase W1 D1 trace1 t stepPeriod w1)
          (resetPhase W2 D2 trace2 t stepPeriod w2).
Proof.
  intros (Hr & Hl & Hc & Hh).
  destruct (doReset w1 || numGt t (lastStepTime w1 + TIME_RESET_THRESHOLD)) eqn:C.
  - rewrite (resetPhase_fires W1 D1 trace1 stepPeriod t w1 C).
    rewrite Hr, Hl in C.
    rewrite (resetPhase_fires W2 D2 trace2 stepPeriod t w2 C).
    destruct trace1, trace2; try contradiction; simpl; repeat split;
      assumption.
  - rewrite (resetPhase_idle W1 D1 trace1 stepPeriod t w1 C).
    rewrite Hr, Hl in C.
    rewrite (resetPhase_idle W2 D2 trace2 stepPeriod t w2 C).
    simpl. repeat split; assumption.
Qed.

Lemma catchUp_related (t : Q) (fuel : nat) :
  forall w1 w2, sameFields w1 w2 ->
  sameRun (catchUp W1 D1 step1 trace1 fuel t stepPeriod w1)
          (catchUp W2 D2 step2 trace2 fuel t stepPeriod w2).
Proof.
  induction fuel as [ | fuel IH]; intros w1 w2 (Hr & Hl & Hc & Hh);
    destruct (numGt t (lastStepTime w1 + stepPeriod)) eqn:G.
  - simpl. rewrite G. rewrite Hl in G. rewrite G. simpl.
    repeat split; assumption.
  - rewrite (catchUp_exit W1 D1 step1 trace1 stepPeriod 0 t w1 G).
    rewrite Hl in G.
    rewrite (catchUp_exit W2 D2 step2 trace2 stepPeriod 0 t w2 G).
    simpl. repeat split; assumption.
  - rewrite (catchUp_iterate W1 D1 step1 trace1 stepPeriod fuel t w1 G).
    rewrite Hl in G.
    rewrite (catchUp_iterate W2 D2 step2 trace2 stepPeriod fuel t w2 G).
    destruct trace1 as [f1 | ], trace2 as [f2 | ]; try contradiction;
      [ | simpl; repeat split; assumption ].
    cbv zeta. rewrite <- Hl, <- Hc.
    pose proof (step_related (lastStepTime w1 + stepPeriod)
                  (stepPeriod + correction w1) false _ _ Hh) as S.
    destruct (step1 _ _ false (host w1)) as [x | x],
             (step2 _ _ false (host w2)) as [y | y]; try contradiction.
    + simpl.
      match goal with
      | |- context [catchUp W1 D1 step1 _ fuel t stepPeriod ?a] =>
          match goal with
          | |- context [catchUp W2 D2 step2 _ fuel t stepPeriod ?b] =>
              destruct (IH a b) as (Ke & Ko & Kw)
          end
      end;
        [ simpl; repeat split; [ exact Hr | exact S ] | ].
      rewrite Ke, Ko. repeat split; tauto.
    + simpl. repeat split; assumption.
  - rewrite (catchUp_exit W1 D1 step1 trace1 stepPeriod (S fuel) t w1 G).
    rewrite Hl in G.
    rewrite (catchUp_exit W2 D2 step2 trace2 stepPeriod (S fuel) t w2 G).
    simpl. repeat split; assumption.
Qed.


Lemma dispatch_related (t : Q) w1 w2 :
  sameFields w1 w2 ->
  sameRun (dispatch W1 D1 step1 trace1 t stepPeriod w1)
          (dispatch W2 D2 step2 trace2 t stepPeriod w2).
Proof.
  intros (Hr & Hl & Hc & Hh). unfold dispatch. rewrite <- Hl.
  destruct (numLt t (lastStepTime w1)).
  - rewrite !earlyBranch_unfold.
    destruct trace1 as [f1 | ], trace2 as [f2 | ]; try contradiction;
      [ | simpl; repeat split; assumption ].
    cbv zeta. rewrite <- Hl, <- Hc.
    match goal with
    | |- context [step1 ?a ?b true (host w1)] =>
        pose proof (step_related a b true _ _ Hh) as S
    end.
    destruct (step1 _ _ true (host w1)), (step2 _ _ true (host w2));
      try contradiction; simpl; repeat split; assumption.
  - rewrite !normalBranch_unfold.
    destruct trace1 as [f1 | ], trace2 as [f2 | ]; try contradiction;
      [ | simpl; repeat split; assumption ].
    cbv zeta. rewrite <- Hl, <- Hc.
    match goal with
    | |- context [step1 ?a ?b false (host w1)] =>
        pose proof (step_related a b false _ _ Hh) as S
    end.
    destruct (step1 _ _ false (host w1)), (step2 _ _ false (host w2));
      try contradiction; simpl; repeat split; assumption.
Qed.

Lemma draw_related (fuel : nat) (t dt : Q) w1 w2 :
  sameFields w1 w2 ->
  sameRun (draw W1 D1 step1 trace1 stepPeriod scheduler fuel t dt w1)
          (draw W2 D2 step2 trace2 stepPeriod scheduler fuel t dt w2).
Proof.
  intro H. unfold draw.
  destruct (String.eqb scheduler "render-schedule");
    [ | simpl; repeat split; tauto ].
  rewrite !runClientStep_unfold.
  apply andThen_related; [ apply resetPhase_related; exact H | ].
  intros v1 v2 Hv.
  apply andThen_related; [ apply catchUp_related; exact Hv | ].
  intros u1 u2 Hu. apply dispatch_related. exact Hu.
Qed.

End Simulation.

(** ** The trace object *)

Lemma runClientStep_without_trace W D step (p : Q) (fuel : nat) (t dt : Q)
    (w : World W D) :
  outcome (runClientStep W D step None p (S fuel) t dt w) = Threw TypeError /\
  events (runClientStep W D step None p (S fuel) t dt w) = [].
Proof.
  rewrite runClientStep_unfold.
  destruct (doReset w || numGt t (lastStepTime w + TIME_RESET_THRESHOLD)) eqn:C.
  - rewrite resetPhase_fires by assumption. split; reflexivity.
  - rewrite resetPhase_idle by assumption.
    rewrite andThen_returned by reflexivity.
    cbn [events world outcome app].
    destruct (numGt t (lastStepTime w + p)) eqn:G.
    + rewrite catchUp_iterate by assumption. split; reflexivity.
    + rewrite catchUp_exit by assumption.
      rewrite andThen_returned by reflexivity.
    cbn [events world outcome app].
      unfold dispatch. destruct (numLt t (lastStepTime w)).
      * rewrite earlyBranch_unfold. split; reflexivity.
      * rewrite normalBranch_unfold. split; reflexivity.
Qed.

(** C9 (as the code has it).  A trace object that is present only observes:
    two runs that differ in nothing but the trace object (and its state)
    make the same calls, end the same way and leave the same [doReset],
    [lastStepTime], [correction] and step-collaborator state.  It is not
    optional: with the trace object missing, [runClientStep] (which [draw]
    calls in render-schedule mode) makes no call at all and ends with a
    [TypeError]. *)
Theorem trace_observes_but_is_required W D1 D2
    (step : Q -> Q -> bool -> W -> stepResult W)
    (f1 : traceMsg -> D1 -> D1) (f2 : traceMsg -> D2 -> D2)
    (p : Q) (scheduler : string) (fuel : nat) (t dt : Q)
    (w : World W D1) (d2 : D2) :
  let w' := mkWorld (doReset w) (lastStepTime w) (correction w) (host w) d2 in
  let r1 := draw W D1 step (Some f1) p scheduler fuel t dt w in
  let r2 := draw W D2 step (Some f2) p scheduler fuel t dt w' in
  (events r1 = events r2 /\
   outcome r1 = outcome r2 /\
   doReset (world r1) = doReset (world r2) /\
   lastStepTime (world r1) = lastStepTime (world r2) /\
   correction (world r1) = correction (world r2) /\
   host (world r1) = host (world r2)) /\
  outcome (runClientStep W D1 step None p (S fuel) t dt w) = Threw TypeError /\
  events (runClientStep W D1 step None p (S fuel) t dt w) = [].
Proof.
  cbv zeta. split; [ | apply runClientStep_without_trace ].
  pose proof (draw_related W W D1 D2 step step (Some f1) (Some f2) p scheduler
                eq) as H.
  simpl in H.
  assert (Hs : forall time dt0 b (h1 h2 : W), h1 = h2 ->
            match step time dt0 b h1, step time dt0 b h2 with
            | Returns x, Returns y => x = y
            | Throws x, Throws y => x = y
            | _, _ => False
            end).
  { intros time dt0 b h1 h2 E. subst h2.
    destruct (step time dt0 b h1); reflexivity. }
  destruct (H Hs I fuel t dt w
              (mkWorld (doReset w) (lastStepTime w) (correction w) (host w) d2))
    as (He & Ho & Hr & Hl & Hc & Hh).
  { simpl. repeat split; reflexivity. }
  repeat split; assumption.
Qed.

(** ** The catch-up scenario *)

(** C3.  Period 16, [lastStepTime = 0], [correction = 0], no reset pending,
    trace object present, step function returning: [draw(100, _)] makes six
    step calls from the loop, each with [dt = 16], at times 16, 32, ..., 96;
    the loop leaves [lastStepTime = 96]; then the normal branch makes one
    step call with [dt = 100 - 96 + 0 = 4], and the call returns. *)
Theorem catch_up_scenario W D (step : Q -> Q -> bool -> W -> stepResult W)
    (f : traceMsg -> D -> D) (fuel : nat) (dt : Q) (h : W) (d : D) :
  (forall time dt' b h', exists h'', step time dt' b h' = Returns h'') ->
  (6 <= fuel)%nat ->
  let w := mkWorld false 0 0 h d in
  let r := draw W D step (Some f) 16 "render-schedule" fuel 100 dt w in
  events r =
    [TraceCall (DRAWING_EXTRA 100 0 0 16); StepCall CatchUp 16 16 false true;
     TraceCall (DRAWING_EXTRA 100 16 0 16); StepCall CatchUp 32 16 false true;
     TraceCall (DRAWING_EXTRA 100 32 0 16); StepCall CatchUp 48 16 false true;
     TraceCall (DRAWING_EXTRA 100 48 0 16); StepCall CatchUp 64 16 false true;
     TraceCall (DRAWING_EXTRA 100 64 0 16); StepCall CatchUp 80 16 false true;
     TraceCall (DRAWING_EXTRA 100 80 0 16); StepCall CatchUp 96 16 false true;
     TraceCall (DRAWING 100 96 0 16); StepCall Normal 100 4 false true;
     TraceCall (DONE 100 112 12 16)] /\
  calls CatchUp (events (catchUp W D step (Some f) fuel 100 16 w)) = 6%nat /\
  lastStepTime (world (catchUp W D step (Some f) fuel 100 16 w)) = 96 /\
  outcome r = Returned /\
  lastStepTime (world r) = 112 /\
  correction (world r) = 12.
Proof.
  intros Hstep Hfuel. cbv zeta.
  assert (Hs : forall time dt0 b (h1 : W) (h2 : unit), True ->
            match step time dt0 b h1, stepOk time dt0 b h2 with
            | Returns x, Returns y => True
            | Throws x, Throws y => True
            | _, _ => False
            end).
  { intros time dt0 b h1 h2 _. destruct (Hstep time dt0 b h1) as [h' E].
    rewrite E. exact I. }
  pose (g := fun (_ : traceMsg) (u : unit) => u).
  destruct (draw_related W unit D unit step stepOk (Some f) (Some g) 16
              "render-schedule" (fun _ _ => True) Hs I fuel 100 dt
              (mkWorld false 0 0 h d) (mkWorld false 0 0 tt tt))
    as (He & Ho & _ & Hl & Hc & _).
  { simpl. repeat split; reflexivity. }
  destruct (catchUp_related W unit D unit step stepOk (Some f) (Some g) 16
              (fun _ _ => True) Hs I 100 fuel
              (mkWorld false 0 0 h d) (mkWorld false 0 0 tt tt))
    as (Ce & _ & _ & Cl & _ & _).
  { simpl. repeat split; reflexivity. }
  rewrite He, Ho, Hl, Hc, Ce, Cl.
  rewrite (draw_more_fuel unit unit stepOk (Some g) 16 "render-schedule"
             100 dt (mkWorld false 0 0 tt tt) 6 fuel)
    by (try exact Hfuel; vm_compute; discriminate).
  rewrite (catchUp_more_fuel unit unit stepOk (Some g) 16 100 6
             (mkWorld false 0 0 tt tt))
    by (try exact Hfuel; vm_compute; discriminate).
  split; [ vm_compute; reflexivity | ].
  split; [ vm_compute; reflexivity | ].
  split; [ vm_compute; reflexivity | ].
  split; [ vm_compute; reflexivity | ].
  split; vm_compute; reflexivity.
Qed.

(** ** Worked examples *)

(** Period 16, fields at zero, the recording trace object. *)
Local Abbreviation start :=
  (mkWorld (W := unit) (D := list traceMsg) false 0 0 tt []).

(** C7 at a concrete call: in mode ["scheduler"], with a reset pending,
    [draw(1000, 16)] changes nothing. *)
Lemma draw_is_noop_in_other_modes_witness :
  draw unit (list traceMsg) stepOk (Some traceLog) 16 "scheduler" 8 1000 16
    (onStepReset start)
  = mkResult [] (onStepReset start) Returned.
Proof.
  apply (draw_is_noop_in_other_modes unit (list traceMsg) stepOk
           (Some traceLog) 16 "scheduler" 8 1000 16 (onStepReset start)).
  discriminate.
Defined.

(** C1 at a concrete call: [t = 110] is past [lastStepTime + 100]. *)
Lemma reset_fires_iff_witness :
  existsb isResetting
    (events (draw unit (list traceMsg) stepOk (Some traceLog) 16
               "render-schedule" 8 110 0 start)) = true <->
  (doReset start = true \/ lastStepTime start + TIME_RESET_THRESHOLD < 110).
Proof.
  apply (reset_fires_iff unit (list traceMsg) stepOk (Some traceLog) 16
           "render-schedule" traceLog 8 110 0 start); reflexivity.
Defined.

(** C1 fails as stated: with period 16, no reset pending and
    [lastStepTime = 0], the tick at [t = 110] lies in the window
    [lastStepTime + 100 < t <= lastStepTime + period + 100], and the call
    resets all the same. *)
Lemma reset_test_ignores_period :
  doReset start = false /\
  lastStepTime start + TIME_RESET_THRESHOLD < 110 /\
  110 <= lastStepTime start + 16 + TIME_RESET_THRESHOLD /\
  existsb isResetting
    (events (draw unit (list traceMsg) stepOk (Some traceLog) 16
               "render-schedule" 8 110 0 start)) = true.
Proof.
  split; [ reflexivity | ].
  split; [ reflexivity | ].
  split; [ discriminate | vm_compute; reflexivity ].
Qed.

(** C2 at a concrete call: a pending reset and [t = 1000], period 10. *)
Lemma reset_recenters_before_any_step_witness :
  exists r1 : Result unit (list traceMsg),
    draw unit (list traceMsg) stepOk (Some traceLog) 10 "render-schedule" 8
      1000 0 (onStepReset start)
    = andThen r1
        (seq (catchUp unit (list traceMsg) stepOk (Some traceLog) 8 1000 10)
             (dispatch unit (list traceMsg) stepOk (Some traceLog) 1000 10)) /\
    stepCalls (events r1) = [] /\
    doReset (world r1) = false /\
    lastStepTime (world r1) = 1000 - 10 / 2 /\
    correction (world r1) = 10 / 2 /\
    host (world r1) = host (onStepReset start).
Proof.
  apply (reset_recenters_before_any_step unit (list traceMsg) stepOk
           (Some traceLog) 10 "render-schedule" 8 1000 0 (onStepReset start)).
  - reflexivity.
  - left. reflexivity.
Defined.

(** C3 with the recording trace object. *)
Lemma catch_up_scenario_witness :
  calls CatchUp
    (events (draw unit (list traceMsg) stepOk (Some traceLog) 16
               "render-schedule" 6 100 0 start)) = 6%nat /\
  calls Normal
    (events (draw unit (list traceMsg) stepOk (Some traceLog) 16
               "render-schedule" 6 100 0 start)) = 1%nat /\
  outcome (draw unit (list traceMsg) stepOk (Some traceLog) 16
             "render-schedule" 6 100 0 start) = Returned.
Proof.
  destruct (catch_up_scenario unit (list traceMsg) stepOk traceLog 6 0 tt [])
    as (He & _ & _ & Ho & _).
  - intros time dt' b h'. exists h'. reflexivity.
  - lia.
  - rewrite He.
    split; [ reflexivity | ]. split; [ reflexivity | exact Ho ].
Defined.

(** C6 fails as stated: the call of the catch-up scenario makes six step
    calls from the loop and then one from the normal branch. *)
Lemma catch_up_and_normal_in_one_tick :
  calls CatchUp
    (events (draw unit (list traceMsg) stepOk (Some traceLog) 16
               "render-schedule" 8 100 0 start)) = 6%nat /\
  calls Normal
    (events (draw unit (list traceMsg) stepOk (Some traceLog) 16
               "render-schedule" 8 100 0 start)) = 1%nat.
Proof. split; vm_compute; reflexivity. Qed.

(** C4 on a concrete sequence: a reset signal, five ticks (one of them
    going back in time), period 16. *)
Lemma dt_never_negative_witness :
  Forall dtNonNegative
    (events (feed unit (list traceMsg) stepOk (Some traceLog) 16
               "render-schedule" 16
               [Tick 1000 0; Tick 1004 4; Tick 1020 16; Signal; Tick 1021 1;
                Tick 1010 0; Tick 1100 90]
               start)).
Proof.
  apply (dt_never_negative unit (list traceMsg) stepOk (Some traceLog) 16
           "render-schedule").
  - reflexivity.
  - discriminate.
Defined.

(** C4 fails as stated: only the early branch clamps.  From a negative
    correction ([-50], with [lastStepTime = 0] and period 16) the single
    tick [t = 40] enters the loop, which hands
    [dt = p + correction = -34] to the step function. *)
Lemma negative_correction_gives_negative_dt :
  let w := mkWorld (W := unit) (D := list traceMsg) false 0 (-50) tt [] in
  let es := events (feed unit (list traceMsg) stepOk (Some traceLog) 16
                      "render-schedule" 8 [Tick 40 0] w) in
  In (StepCall CatchUp 16 (-34) false true) es /\
  ~ Forall dtNonNegative es.
Proof.
  cbv zeta.
  assert (H : In (StepCall CatchUp 16 (-34) false true)
                (events (feed unit (list traceMsg) stepOk (Some traceLog) 16
                           "render-schedule" 8 [Tick 40 0]
                           (mkWorld false 0 (-50) tt [])))).
  { vm_compute. right. left. reflexivity. }
  split; [ exact H | ].
  intro F. rewrite Forall_forall in F. specialize (F _ H).
  simpl in F. apply F. reflexivity.
Qed.

(** C5 at a concrete call: period 16, [lastStepTime = 0], [t = 10]. *)
Lemma tick_within_period_witness :
  exists ok : bool,
    stepCalls
      (events (draw unit (list traceMsg) stepOk (Some traceLog) 16
                 "render-schedule" 8 10 0 start)) =
      [StepCall Normal 10 (10 - lastStepTime start + correction start) false ok] /\
    lastStepTime
      (world (draw unit (list traceMsg) stepOk (Some traceLog) 16
                "render-schedule" 8 10 0 start)) = lastStepTime start + 16 /\
    correction
      (world (draw unit (list traceMsg) stepOk (Some traceLog) 16
                "render-schedule" 8 10 0 start)) = lastStepTime start + 16 - 10 /\
    outcome (draw unit (list traceMsg) stepOk (Some traceLog) 16
               "render-schedule" 8 10 0 start) =
      if ok then Returned else Threw StepFailure.
Proof.
  apply (tick_within_period unit (list traceMsg) stepOk (Some traceLog) 16
           "render-schedule" traceLog 8 10 0 start);
    try reflexivity; discriminate.
Defined.

(** C5 fails as stated: with period 300, [lastStepTime = 0] and no reset
    pending, [t = 200] satisfies [lastStepTime <= t < lastStepTime + period],
    but the reset test fires ([200 > 0 + 100]); the step function gets
    [dt = 300], not [200], and [lastStepTime] ends at 350, not 300. *)
Lemma long_period_tick_resets :
  let r := draw unit (list traceMsg) stepOk (Some traceLog) 300
             "render-schedule" 8 200 0 start in
  doReset start = false /\
  lastStepTime start <= 200 /\
  200 < lastStepTime start + 300 /\
  ~ lastStepTime (world r) == lastStepTime start + 300 /\
  lastStepTime (world r) == 350 /\
  exists dt, stepCalls (events r) = [StepCall Normal 200 dt false true] /\
             dt == 300 /\
             ~ dt == 200 - lastStepTime start + correction start.
Proof.
  cbv zeta. split; [ reflexivity | ].
  split; [ discriminate | ].
  split; [ reflexivity | ].
  split; [ intro H; vm_compute in H; discriminate | ].
  split; [ vm_compute; reflexivity | ].
  eexists. split; [ vm_compute; reflexivity | ].
  split; [ vm_compute; reflexivity | intro H; vm_compute in H; discriminate ].
Qed.

(** C10 at a concrete state: a negative correction before the call. *)
Lemma correction_nonnegative_on_return_witness :
  let w := mkWorld (W := unit) (D := list traceMsg) false 0 (-50) tt [] in
  0 <= correction
         (world (draw unit (list traceMsg) stepOk (Some traceLog) 16
                   "render-schedule" 8 40 0 w)) /\
  (forall (m : nat) (ins : list input),
     0 <= correction
            (world
               (feed unit (list traceMsg) stepOk (Some traceLog) 16
                  "render-schedule" m ins
                  (world (draw unit (list traceMsg) stepOk (Some traceLog) 16
                            "render-schedule" 8 40 0 w))))).
Proof.
  cbv zeta.
  apply (correction_nonnegative_on_return unit (list traceMsg) stepOk
           (Some traceLog) 16 "render-schedule" 8 40 0
           (mkWorld false 0 (-50) tt [])).
  - reflexivity.
  - reflexivity.
  - vm_compute. reflexivity.
Defined.

(** C8 fails as stated: with a step function that throws, [draw(10, _)]
    ends by throwing the failure, and the failing call is the last thing it
    did: nothing was told to the trace object afterwards. *)
Lemma step_failure_reaches_the_caller :
  let r := draw unit (list traceMsg) stepBroken (Some traceLog) 16
             "render-schedule" 8 10 0 start in
  outcome r = Threw StepFailure /\
  events r = [TraceCall (DRAWING 10 0 0 16); StepCall Normal 10 10 false false] /\
  diag (world r) = [DRAWING 10 0 0 16].
Proof.
  cbv zeta. repeat (split; [ vm_compute; reflexivity | ]).
  vm_compute; reflexivity.
Qed.

(** C9 fails as stated: without a trace object the same call makes no step
    call and ends with a [TypeError]; with one it makes a step call and
    returns. *)
Lemma missing_trace_object_breaks_draw :
  let absent := draw unit (list traceMsg) stepOk None 16
                  "render-schedule" 8 10 0 start in
  let present := draw unit (list traceMsg) stepOk (Some traceLog) 16
                   "render-schedule" 8 10 0 start in
  outcome absent = Threw TypeError /\
  stepCalls (events absent) = [] /\
  lastStepTime (world absent) = 0 /\
  outcome present = Returned /\
  stepCalls (events present) = [StepCall Normal 10 10 false true] /\
  lastStepTime (world present) = 16.
Proof.
  cbv zeta. repeat (split; [ vm_compute; reflexivity | ]).
  vm_compute; reflexivity.
Qed.

(** ** Worked examples for the further properties *)

Local Abbreviation demo period :=
  (draw unit (list traceMsg) stepOk (Some traceLog) period "render-schedule").

(** X2 at a concrete call: period 16, fields at zero, [t = 40]. *)
Lemma lastStepTime_never_goes_back_witness :
  lastStepTime start <= lastStepTime (world (demo 16 8 40 0 start)).
Proof.
  apply (lastStepTime_never_goes_back unit (list traceMsg) stepOk
           (Some traceLog) 16 "render-schedule" 8 40 0 start).
  - discriminate.
  - reflexivity.
  - discriminate.
Defined.

(** X3 at a concrete call: the catch-up scenario. *)
Lemma fields_on_return_witness :
  correction (world (demo 16 8 100 0 start)) =
    lastStepTime (world (demo 16 8 100 0 start)) - 100 /\
  100 <= lastStepTime (world (demo 16 8 100 0 start)).
Proof.
  apply (fields_on_return unit (list traceMsg) stepOk (Some traceLog) 16
           "render-schedule" 8 100 0 start).
  - reflexivity.
  - vm_compute. reflexivity.
Defined.

(** X4 at a concrete call: a pending signal, period 10, [t = 1000]. *)
Lemma reset_tick_witness :
  exists ok : bool,
    stepCalls (events (demo 10 8 1000 0 (onStepReset start))) =
      [StepCall Normal 1000 (1000 - (1000 - 10 / 2) + 10 / 2) false ok] /\
    lastStepTime (world (demo 10 8 1000 0 (onStepReset start))) =
      1000 - 10 / 2 + 10 /\
    correction (world (demo 10 8 1000 0 (onStepReset start))) =
      1000 - 10 / 2 + 10 - 1000 /\
    outcome (demo 10 8 1000 0 (onStepReset start)) =
      if ok then Returned else Threw StepFailure.
Proof.
  apply (reset_tick unit (list traceMsg) stepOk (Some traceLog) 10
           "render-schedule" traceLog 8 1000 0 (onStepReset start)).
  - reflexivity.
  - reflexivity.
  - discriminate.
  - left. reflexivity.
Defined.

(** X5 at a concrete call: [lastStepTime = 20], [correction = 4],
    [t = 18]. *)
Lemma early_tick_witness :
  let w := mkWorld (W := unit) (D := list traceMsg) false 20 4 tt [] in
  exists ok : bool,
    stepCalls (events (demo 16 8 18 0 w)) =
      [StepCall Early 18
         (if numLt (18 - lastStepTime w + correction w) 0 then 0
          else 18 - lastStepTime w + correction w) true ok] /\
    lastStepTime (world (demo 16 8 18 0 w)) = lastStepTime w /\
    correction (world (demo 16 8 18 0 w)) = lastStepTime w - 18 /\
    outcome (demo 16 8 18 0 w) = if ok then Returned else Threw StepFailure.
Proof.
  cbv zeta.
  apply (early_tick unit (list traceMsg) stepOk (Some traceLog) 16
           "render-schedule" traceLog 8 18 0 (mkWorld false 20 4 tt [])).
  - reflexivity.
  - reflexivity.
  - discriminate.
  - reflexivity.
  - reflexivity.
Defined.

(** X6 at a concrete call: the catch-up scenario. *)
Lemma catch_up_count_witness :
  let n := calls CatchUp (events (demo 16 8 100 0 start)) in
  (1 <= n)%nat /\
  stepsAhead n (lastStepTime start) 16 < 100 /\
  100 <= stepsAhead n (lastStepTime start) 16 + 16 /\
  calls Normal (events (demo 16 8 100 0 start)) = 1%nat /\
  calls Early (events (demo 16 8 100 0 start)) = 0%nat /\
  lastStepTime (world (demo 16 8 100 0 start)) =
    stepsAhead n (lastStepTime start) 16 + 16.
Proof.
  apply (catch_up_count unit (list traceMsg) stepOk (Some traceLog) 16
           "render-schedule" 8 100 0 start).
  - reflexivity.
  - reflexivity.
  - discriminate.
  - reflexivity.
  - vm_compute. reflexivity.
Defined.


(** X11 at a concrete call: period zero, fields at zero, [t = 10]. *)
Lemma nonpositive_period_never_returns_witness :
  outcome (demo 0 8 10 0 start) <> Returned.
Proof.
  apply (nonpositive_period_never_returns unit (list traceMsg) stepOk
           (Some traceLog) 0 "render-schedule" 8 10 0 start).
  - reflexivity.
  - discriminate.
  - left. split; [ reflexivity | ]. split; [ discriminate | reflexivity ].
Defined.

(** X13 at two concrete calls: a first call at 1000, the next at 1030. *)
Lemma step_times_follow_the_previous_tick_witness :
  Forall (timeAtLeast 1000)
    (events (demo 16 8 1030 0 (world (demo 16 8 1000 0 start)))).
Proof.
  apply (step_times_follow_the_previous_tick unit (list traceMsg) stepOk
           (Some traceLog) 16 "render-schedule" 8 8 1000 0 1030 0 start).
  - reflexivity.
  - discriminate.
  - vm_compute. reflexivity.
  - discriminate.
Defined.
